(** * Check_Format: the Discrete Sample Summary format checker

    A shallow embedding of the notebook
    [discrete_summary_checker/example/Check_Format.ipynb]: the header check
    loop, the custom element validators [check_decimal], [check_int] and
    [check_len], the series validator [is_same], the validation [schema], the
    [metadata_schema] and the station-by-station loop.

    The notebook is a client of the Python builtins ([int], [str], [len],
    [decimal.Decimal], [re]) and of the packages [pandas] and [pandas_schema].
    The parts of those the notebook calls are modelled in the modules [Py],
    [Re] and [Pd] below; everything after them follows the notebook cell by
    cell.

    Conventions of the model:
    - text is ASCII: a [string] is a sequence of characters of one byte and
      [len] counts them;
    - a cell is None, a string or a number; a number is an integer or a
      float, and a finite float is written as the decimal its [repr] shows;
    - a call returns a value or raises ([result]); a loop that prints
      returns the printed items and the exception that ended it, if any;
    - [cruise_names] (read from a file that is not part of the notebook) and
      the date parser behind [DateFormatValidation] are parameters. *)

From Stdlib Require Import String Ascii ZArith NArith QArith Bool Lia Arith List.
From Stdlib Require Import DecimalString.
Import ListNotations.

Local Open Scope string_scope.
Local Open Scope list_scope.

(* ================================================================== *)
(** * Python values, exceptions and builtins *)
(* ================================================================== *)

Module Py.

(** The exceptions the modelled calls can raise. *)
Inductive exn : Set :=
| ValueError
| TypeError
| OverflowError
| InvalidOperation
| IndexError
| KeyError
| ReError.

Definition exn_eqb (a b : exn) : bool :=
  match a, b with
  | ValueError, ValueError | TypeError, TypeError
  | OverflowError, OverflowError | InvalidOperation, InvalidOperation
  | IndexError, IndexError | KeyError, KeyError | ReError, ReError => true
  | _, _ => false
  end.

(** A computation either returns a value or raises. *)
Inductive result (A : Type) : Type :=
| Ok (a : A)
| Raise (e : exn).
Arguments Ok {A} a.
Arguments Raise {A} e.

Definition bind {A B} (r : result A) (k : A -> result B) : result B :=
  match r with
  | Ok a => k a
  | Raise e => Raise e
  end.

(** [try: body / except e: handler]: only the named exception is caught. *)
Definition try_except {A} (body : result A) (e : exn) (handler : result A)
  : result A :=
  match body with
  | Ok a => Ok a
  | Raise e' => if exn_eqb e e' then handler else Raise e'
  end.

(** [for x in l: ...] collecting one value per iteration; the first
    iteration that raises ends the loop. *)
Fixpoint mapM {A B} (f : A -> result B) (l : list A) : result (list B) :=
  match l with
  | [] => Ok []
  | x :: l' => bind (f x) (fun y => bind (mapM f l') (fun ys => Ok (y :: ys)))
  end.

(** A Python [float].  A finite float is represented by the decimal its
    [repr] prints (the shortest digits that round-trip): sign, digits [m]
    and power of ten [e], standing for [(-1)^neg * m * 10^e]. *)
Inductive pyfloat : Set :=
| FFin (neg : bool) (m : N) (e : Z)
| FInf (neg : bool)
| FNaN.

Inductive number : Set :=
| NInt (z : Z)
| NFloat (f : pyfloat).

(** A cell of the spreadsheet as pandas hands it to a validator. *)
Inductive cell : Set :=
| CNone
| CStr (s : string)
| CNum (n : number).

Definition CInt (z : Z) : cell := CNum (NInt z).
Definition CFloat (f : pyfloat) : cell := CNum (NFloat f).

(** ** Characters *)

Definition chars (s : string) : list ascii := list_ascii_of_string s.
Definition text (l : list ascii) : string := string_of_list_ascii l.

Definition is_digit (c : ascii) : bool :=
  (48 <=? nat_of_ascii c)%nat && (nat_of_ascii c <=? 57)%nat.

Definition digit_val (c : ascii) : N := N.of_nat (nat_of_ascii c - 48).

(** The ASCII characters [str.isspace] accepts. *)
Definition is_space (c : ascii) : bool :=
  let n := nat_of_ascii c in
  ((9 <=? n)%nat && (n <=? 13)%nat) || ((28 <=? n)%nat && (n <=? 32)%nat).

Fixpoint lstrip (l : list ascii) : list ascii :=
  match l with
  | c :: l' => if is_space c then lstrip l' else l
  | [] => []
  end.

Definition strip (l : list ascii) : list ascii :=
  rev (lstrip (rev (lstrip l))).

Definition lower (c : ascii) : ascii :=
  let n := nat_of_ascii c in
  if (65 <=? n)%nat && (n <=? 90)%nat then ascii_of_nat (n + 32) else c.

Definition newline : ascii := ascii_of_nat 10.
Definition dquote : string := String (ascii_of_nat 34) EmptyString.

(** ** [str(x)] *)

Definition str_of_Z (z : Z) : string := NilZero.string_of_int (Z.to_int z).
Definition str_of_N (n : N) : string := NilZero.string_of_uint (N.to_uint n).

Fixpoint drop_zeros (l : list ascii) : list ascii :=
  match l with
  | c :: l' => if Ascii.eqb c "0" then drop_zeros l' else l
  | [] => []
  end.

Definition zeros (n : nat) : list ascii := repeat "0"%char n.

(** [repr] of a finite float from its shortest digits [ds] (no trailing
    zero) and the position [decpt] of the decimal point: fixed notation
    when [-4 < decpt <= 16], exponent notation otherwise, and [.0] added
    to a whole number. *)
Definition float_digits_repr (ds : list ascii) (decpt : Z) : list ascii :=
  let n := Z.of_nat (length ds) in
  if (decpt <=? -4)%Z || (16 <? decpt)%Z then
    let ex := (decpt - 1)%Z in
    let exs := chars (str_of_N (Z.to_N (Z.abs ex))) in
    let exs := if (length exs <? 2)%nat then "0"%char :: exs else exs in
    let mant := match ds with
                | [] => []
                | [d] => [d]
                | d :: rest => d :: "."%char :: rest
                end in
    mant ++ "e"%char :: (if (ex <? 0)%Z then "-"%char else "+"%char) :: exs
  else if (decpt <=? 0)%Z then
    "0"%char :: "."%char :: zeros (Z.to_nat (- decpt)) ++ ds
  else if (n <=? decpt)%Z then
    ds ++ zeros (Z.to_nat (decpt - n)) ++ [ "."%char; "0"%char ]
  else
    firstn (Z.to_nat decpt) ds ++ "."%char :: skipn (Z.to_nat decpt) ds.

Definition float_repr (f : pyfloat) : string :=
  match f with
  | FNaN => "nan"
  | FInf neg => if neg then "-inf" else "inf"
  | FFin neg m e =>
      let sign := if neg then "-" else "" in
      if (m =? 0)%N then (sign ++ "0.0")%string
      else
        let all := chars (str_of_N m) in
        let ds := rev (drop_zeros (rev all)) in
        let e' := (e + Z.of_nat (length all - length ds))%Z in
        (sign ++ text (float_digits_repr ds (Z.of_nat (length ds) + e')))%string
  end.

Definition str (c : cell) : string :=
  match c with
  | CNone => "None"
  | CStr s => s
  | CNum (NInt z) => str_of_Z z
  | CNum (NFloat f) => float_repr f
  end.

Definition len (s : string) : nat := String.length s.

(** ** [int(x)] *)

(** Digits with single underscores between them, as [int] accepts them in
    a string.  [prev_us] says that the previous character was not a digit. *)
Fixpoint int_digits (acc : N) (prev_us : bool) (l : list ascii) : option N :=
  match l with
  | [] => if prev_us then None else Some acc
  | c :: l' =>
      if is_digit c then int_digits (10 * acc + digit_val c) false l'
      else if Ascii.eqb c "_" && negb prev_us then int_digits acc true l'
      else None
  end.

Definition int_of_chars (l : list ascii) : option Z :=
  match strip l with
  | "-"%char :: l' => option_map (fun n => (- Z.of_N n)%Z) (int_digits 0 true l')
  | "+"%char :: l' => option_map Z.of_N (int_digits 0 true l')
  | l' => option_map Z.of_N (int_digits 0 true l')
  end.

(** [int] truncates a finite float towards zero. *)
Definition trunc_float (neg : bool) (m : N) (e : Z) : Z :=
  let a := if (0 <=? e)%Z then (Z.of_N m * 10 ^ e)%Z
           else (Z.of_N m / 10 ^ (- e))%Z in
  if neg then (- a)%Z else a.

Definition int (c : cell) : result Z :=
  match c with
  | CNone => Raise TypeError
  | CStr s => match int_of_chars (chars s) with
              | Some z => Ok z
              | None => Raise ValueError
              end
  | CNum (NInt z) => Ok z
  | CNum (NFloat (FFin neg m e)) => Ok (trunc_float neg m e)
  | CNum (NFloat (FInf _)) => Raise OverflowError
  | CNum (NFloat FNaN) => Raise ValueError
  end.

(** ** [decimal.Decimal(x)] *)

Fixpoint span_digits (acc : N) (cnt : nat) (l : list ascii)
  : N * nat * list ascii :=
  match l with
  | c :: l' => if is_digit c then span_digits (10 * acc + digit_val c) (S cnt) l'
               else (acc, cnt, l)
  | [] => (acc, cnt, [])
  end.

Definition skip_sign (l : list ascii) : bool * list ascii :=
  match l with
  | "-"%char :: l' => (true, l')
  | "+"%char :: l' => (false, l')
  | _ => (false, l)
  end.

(** An unsigned decimal numeral: digits with an optional point and an
    optional exponent, at least one digit before the exponent.  Returns the
    digits read as one number and the power of ten. *)
Definition scan_numeral (l : list ascii) : option (N * Z) :=
  let '(a, n1, r1) := span_digits 0 0 l in
  let '(b, n2, r2) := match r1 with
                      | "."%char :: r => span_digits a 0 r
                      | _ => (a, 0%nat, r1)
                      end in
  if (n1 + n2 =? 0)%nat then None
  else match r2 with
       | [] => Some (b, (- Z.of_nat n2)%Z)
       | c :: r3 =>
           if Ascii.eqb (lower c) "e" then
             let (eneg, r4) := skip_sign r3 in
             let '(x, n3, r5) := span_digits 0 0 r4 in
             match n3, r5 with
             | S _, [] =>
                 Some (b, ((if eneg then - Z.of_N x else Z.of_N x)
                           - Z.of_nat n2)%Z)
             | _, _ => None
             end
           else None
       end.

Definition is_nan_payload (l : list ascii) : bool :=
  let '(_, _, r) := span_digits 0 0 l in
  match r with [] => true | _ => false end.

(** The strings [Decimal] converts: surrounding white space and all
    underscores are dropped, then an optional sign and a numeral, an
    infinity or a (signalling) NaN with optional digits, in any case. *)
Definition decimal_literal (l : list ascii) : bool :=
  let l1 := filter (fun c => negb (Ascii.eqb c "_")) (strip l) in
  let l2 := map lower (snd (skip_sign l1)) in
  match scan_numeral l2 with
  | Some _ => true
  | None =>
      match l2 with
      | [ "i"; "n"; "f" ]%char => true
      | [ "i"; "n"; "f"; "i"; "n"; "i"; "t"; "y" ]%char => true
      | "n"%char :: "a"%char :: "n"%char :: r => is_nan_payload r
      | "s"%char :: "n"%char :: "a"%char :: "n"%char :: r => is_nan_payload r
      | _ => false
      end
  end.

(** [Decimal(x)]: the value built is not used by the notebook, so only
    whether the constructor returns or raises is kept. *)
Definition Decimal (c : cell) : result unit :=
  match c with
  | CNone => Raise TypeError
  | CStr s => if decimal_literal (chars s) then Ok tt else Raise InvalidOperation
  | CNum _ => Ok tt
  end.

(** ** Numeric value and comparison *)

Definition float_value (neg : bool) (m : N) (e : Z) : Q :=
  let a := if neg then (- Z.of_N m)%Z else Z.of_N m in
  if (0 <=? e)%Z then inject_Z (a * 10 ^ e)
  else Qmake a (Z.to_pos (10 ^ (- e))).

Definition float_of_Z (z : Z) : pyfloat :=
  FFin (z <? 0)%Z (Z.to_N (Z.abs z)) 0.

Definition float_of_number (n : number) : pyfloat :=
  match n with
  | NInt z => float_of_Z z
  | NFloat f => f
  end.

(** [a <= b] on floats; any comparison with NaN is false. *)
Definition float_le (a b : pyfloat) : bool :=
  match a, b with
  | FNaN, _ | _, FNaN => false
  | FInf true, _ => true
  | _, FInf false => true
  | FInf false, _ => false
  | _, FInf true => false
  | FFin n1 m1 e1, FFin n2 m2 e2 =>
      Qle_bool (float_value n1 m1 e1) (float_value n2 m2 e2)
  end.

(** [a < b] on floats. *)
Definition float_lt (a b : pyfloat) : bool :=
  match a, b with
  | FNaN, _ | _, FNaN => false
  | FInf true, FInf true => false
  | FInf false, FInf false => false
  | FInf true, _ => true
  | _, FInf false => true
  | FInf false, _ => false
  | _, FInf true => false
  | FFin n1 m1 e1, FFin n2 m2 e2 =>
      negb (Qle_bool (float_value n2 m2 e2) (float_value n1 m1 e1))
  end.

Definition float_eq (a b : pyfloat) : bool :=
  float_le a b && float_le b a.

End Py.

Export Py.

(* ================================================================== *)
(** * Regular expressions: the part of [re] the schema's patterns use *)
(* ================================================================== *)

Module Re.

(** Parsed patterns.  [Class] is a bracket class given by its ranges (a
    single character [c] is the range [c-c]); [\d] is [Class [("0","9")]];
    [Any] is [.], which does not match a newline; [Eol] is [$]. *)
Inductive regex : Set :=
| Eps
| Lit (c : ascii)
| Any
| Class (rs : list (ascii * ascii))
| Seq (r1 r2 : regex)
| Alt (r1 r2 : regex)
| Star (r : regex)
| Repeat (r : regex) (n : nat)
| Eol.

(** ** Parsing a pattern *)

(** One nesting level of the parser: the alternatives already closed by a
    [|] and the items of the alternative being read, both latest first. *)
Record frame : Set := { alts : list regex; items : list regex }.

Inductive class_state : Set :=
| NoPend
| Pend (c : ascii)
| PendDash (c : ascii).

Inductive mode : Set :=
| Normal
| Escape
| Brace (n : option N)
| InClass (rs : list (ascii * ascii)) (st : class_state).

Record pstate : Set :=
  { stack : list frame; cur : frame; md : mode; rep_ok : bool }.

Definition seq_of (its : list regex) : regex :=
  match rev its with
  | [] => Eps
  | r :: rest => fold_left Seq rest r
  end.

Definition close_frame (f : frame) : regex :=
  match rev (seq_of (items f) :: alts f) with
  | [] => Eps
  | r :: rest => fold_left Alt rest r
  end.

Definition push_item (r : regex) (ok : bool) (st : pstate) : pstate :=
  {| stack := stack st;
     cur := {| alts := alts (cur st); items := r :: items (cur st) |};
     md := Normal; rep_ok := ok |}.

(** A quantifier applies to the last item; with nothing before it, or after
    another quantifier or an anchor, the pattern is rejected. *)
Definition quantify (q : regex -> regex) (st : pstate) : option pstate :=
  if rep_ok st then
    match items (cur st) with
    | r :: rest =>
        Some {| stack := stack st;
                cur := {| alts := alts (cur st); items := q r :: rest |};
                md := Normal; rep_ok := false |}
    | [] => None
    end
  else None.

Definition is_alnum (c : ascii) : bool :=
  let n := nat_of_ascii c in
  is_digit c || ((65 <=? n)%nat && (n <=? 90)%nat)
  || ((97 <=? n)%nat && (n <=? 122)%nat).

Definition digit_class : regex := Class [ ("0"%char, "9"%char) ].

Definition set_mode (m : mode) (st : pstate) : pstate :=
  {| stack := stack st; cur := cur st; md := m; rep_ok := rep_ok st |}.

(** The parser reads one character at a time.  [None] stands for a pattern
    outside the supported subset (or one that [re] rejects). *)
Definition step (st : pstate) (c : ascii) : option pstate :=
  match md st with
  | Escape =>
      if Ascii.eqb c "d" then Some (push_item digit_class true st)
      else if is_alnum c then None
      else Some (push_item (Lit c) true st)
  | Brace n =>
      if is_digit c then
        Some (set_mode
                (Brace (Some (10 * match n with Some k => k | None => 0 end
                              + digit_val c)%N)) st)
      else if Ascii.eqb c "}" then
        match n with
        | Some k => quantify (fun r => Repeat r (N.to_nat k)) st
        | None => None
        end
      else None
  | InClass rs cs =>
      if Ascii.eqb c "]" then
        match cs, rs with
        | NoPend, [] => None
        | NoPend, _ => Some (push_item (Class (rev rs)) true st)
        | Pend p, _ => Some (push_item (Class (rev ((p, p) :: rs))) true st)
        | PendDash p, _ =>
            Some (push_item
                    (Class (rev (("-"%char, "-"%char) :: (p, p) :: rs))) true st)
        end
      else if Ascii.eqb c "\" then None
      else
        match cs with
        | NoPend =>
            if Ascii.eqb c "^" && match rs with [] => true | _ => false end
            then None
            else Some (set_mode (InClass rs (Pend c)) st)
        | Pend p =>
            if Ascii.eqb c "-" then Some (set_mode (InClass rs (PendDash p)) st)
            else Some (set_mode (InClass ((p, p) :: rs) (Pend c)) st)
        | PendDash p =>
            if (nat_of_ascii p <=? nat_of_ascii c)%nat
            then Some (set_mode (InClass ((p, c) :: rs) NoPend) st)
            else None
        end
  | Normal =>
      if Ascii.eqb c "\" then Some (set_mode Escape st)
      else if Ascii.eqb c "[" then Some (set_mode (InClass [] NoPend) st)
      else if Ascii.eqb c "{" then Some (set_mode (Brace None) st)
      else if Ascii.eqb c "." then Some (push_item Any true st)
      else if Ascii.eqb c "$" then Some (push_item Eol false st)
      else if Ascii.eqb c "*" then quantify Star st
      else if Ascii.eqb c "|" then
        Some {| stack := stack st;
                cur := {| alts := seq_of (items (cur st)) :: alts (cur st);
                          items := [] |};
                md := Normal; rep_ok := false |}
      else if Ascii.eqb c "(" then
        Some {| stack := cur st :: stack st;
                cur := {| alts := []; items := [] |};
                md := Normal; rep_ok := false |}
      else if Ascii.eqb c ")" then
        match stack st with
        | f :: rest =>
            Some {| stack := rest;
                    cur := {| alts := alts f;
                              items := close_frame (cur st) :: items f |};
                    md := Normal; rep_ok := true |}
        | [] => None
        end
      else if Ascii.eqb c "+" || Ascii.eqb c "?" || Ascii.eqb c "^"
              || Ascii.eqb c "}" || Ascii.eqb c "]" then None
      else Some (push_item (Lit c) true st)
  end.

Fixpoint steps (st : pstate) (l : list ascii) : option pstate :=
  match l with
  | [] => Some st
  | c :: l' => match step st c with
               | Some st' => steps st' l'
               | None => None
               end
  end.

(** [re.compile(pattern)]. *)
Definition compile (pattern : string) : option regex :=
  let st0 := {| stack := []; cur := {| alts := []; items := [] |};
                md := Normal; rep_ok := false |} in
  match steps st0 (chars pattern) with
  | Some st =>
      match md st, stack st with
      | Normal, [] => Some (close_frame (cur st))
      | _, _ => None
      end
  | None => None
  end.

(** ** Matching *)

Fixpoint in_class (rs : list (ascii * ascii)) (c : ascii) : bool :=
  match rs with
  | [] => false
  | (lo, hi) :: rs' =>
      ((nat_of_ascii lo <=? nat_of_ascii c)%nat
       && (nat_of_ascii c <=? nat_of_ascii hi)%nat) || in_class rs' c
  end.

(** Zero or more rounds of [round]; a round that consumes nothing is not
    repeated, so the length of the text bounds the number of rounds. *)
Fixpoint star_loop (round : list ascii -> list (list ascii)) (fuel : nat)
  (s : list ascii) : list (list ascii) :=
  s :: match fuel with
       | O => []
       | S fuel' =>
           flat_map (star_loop round fuel')
             (filter (fun t => (length t <? length s)%nat) (round s))
       end.

(** Exactly [n] rounds of [round]. *)
Fixpoint repeat_loop (round : list ascii -> list (list ascii)) (n : nat)
  (s : list ascii) : list (list ascii) :=
  match n with
  | O => [s]
  | S n' => flat_map (repeat_loop round n') (round s)
  end.

(** [matches r s]: what can remain of [s] after [r] has matched a prefix of
    it, one entry for each way of matching. *)
Fixpoint matches (r : regex) (s : list ascii) : list (list ascii) :=
  match r with
  | Eps => [s]
  | Lit c =>
      match s with
      | x :: t => if Ascii.eqb x c then [t] else []
      | [] => []
      end
  | Any =>
      match s with
      | x :: t => if Ascii.eqb x newline then [] else [t]
      | [] => []
      end
  | Class rs =>
      match s with
      | x :: t => if in_class rs x then [t] else []
      | [] => []
      end
  | Seq r1 r2 => flat_map (matches r2) (matches r1 s)
  | Alt r1 r2 => matches r1 s ++ matches r2 s
  | Star r1 => star_loop (matches r1) (length s) s
  | Repeat r1 n => repeat_loop (matches r1) n s
  | Eol =>
      match s with
      | [] => [s]
      | [c] => if Ascii.eqb c newline then [s] else []
      | _ => []
      end
  end.

Definition is_nil {A} (l : list A) : bool :=
  match l with [] => true | _ => false end.

(** [re.match]: the pattern matches a prefix of the text. *)
Definition match_ (r : regex) (s : list ascii) : bool :=
  negb (is_nil (matches r s)).

(** [re.fullmatch]: the pattern matches the whole text. *)
Definition fullmatch (r : regex) (s : list ascii) : bool :=
  existsb is_nil (matches r s).

(** [re.search]: the pattern matches at some position of the text. *)
Fixpoint search (r : regex) (s : list ascii) : bool :=
  match_ r s || match s with
                | [] => false
                | _ :: t => search r t
                end.

(** ** What a match is *)

(** [Matches r w t]: the pattern [r] matches the text [w] when [w] is
    followed by [t].  What follows matters to [$] only, which matches at the
    end of the text and before a newline that ends the text. *)
Inductive Matches : regex -> list ascii -> list ascii -> Prop :=
| MEps t : Matches Eps [] t
| MLit c t : Matches (Lit c) [c] t
| MAny c t : c <> newline -> Matches Any [c] t
| MClass rs c t : in_class rs c = true -> Matches (Class rs) [c] t
| MSeq r1 r2 w1 w2 t :
    Matches r1 w1 (w2 ++ t) -> Matches r2 w2 t ->
    Matches (Seq r1 r2) (w1 ++ w2) t
| MAltL r1 r2 w t : Matches r1 w t -> Matches (Alt r1 r2) w t
| MAltR r1 r2 w t : Matches r2 w t -> Matches (Alt r1 r2) w t
| MStar0 r t : Matches (Star r) [] t
| MStarS r w1 w2 t :
    Matches r w1 (w2 ++ t) -> Matches (Star r) w2 t ->
    Matches (Star r) (w1 ++ w2) t
| MRepeat0 r t : Matches (Repeat r 0) [] t
| MRepeatS r n w1 w2 t :
    Matches r w1 (w2 ++ t) -> Matches (Repeat r n) w2 t ->
    Matches (Repeat r (S n)) (w1 ++ w2) t
| MEol t : t = [] \/ t = [newline] -> Matches Eol [] t.

End Re.

(* ================================================================== *)
(** * pandas and pandas_schema: the calls the notebook makes *)
(* ================================================================== *)

Module Pd.

(** A column of a data frame: its name, the row labels and the cells. *)
Record Series : Set :=
  { name : string; index : list Z; values : list cell }.

(** A data frame: the row labels and the named columns, each as long as the
    list of labels.  [read_excel] labels the rows 0, 1, 2, ... *)
Record DataFrame : Set :=
  { df_index : list Z; df_columns : list (string * list cell) }.

(** [df.columns] *)
Definition columns (df : DataFrame) : list string :=
  map fst (df_columns df).

Fixpoint lookup (n : string) (cols : list (string * list cell))
  : option (list cell) :=
  match cols with
  | [] => None
  | (n', vs) :: cols' => if String.eqb n n' then Some vs else lookup n cols'
  end.

(** [df[name]] *)
Definition get_column (df : DataFrame) (n : string) : result Series :=
  match lookup n (df_columns df) with
  | Some vs => Ok {| name := n; index := df_index df; values := vs |}
  | None => Raise KeyError
  end.

(** [df[[name, ...]]] *)
Definition get_columns (df : DataFrame) (ns : list string) : result DataFrame :=
  bind (mapM (fun n => bind (get_column df n) (fun s => Ok (n, values s))) ns)
       (fun cols => Ok {| df_index := df_index df; df_columns := cols |}).

Fixpoint select {A} (mask : list bool) (l : list A) : list A :=
  match mask, l with
  | b :: mask', x :: l' => if b then x :: select mask' l' else select mask' l'
  | _, _ => []
  end.

(** [df[mask]]: the rows whose mask is true, with their labels. *)
Definition filter_rows (df : DataFrame) (mask : list bool) : DataFrame :=
  {| df_index := select mask (df_index df);
     df_columns := map (fun c => (fst c, select mask (snd c))) (df_columns df) |}.

(** [==] between two cells: a missing value equals nothing, a string never
    equals a number, numbers compare by value. *)
Definition cell_eq (a b : cell) : bool :=
  match a, b with
  | CStr s, CStr t => String.eqb s t
  | CNum x, CNum y => float_eq (float_of_number x) (float_of_number y)
  | _, _ => false
  end.

(** [series == value] *)
Definition series_eq (s : Series) (v : cell) : list bool :=
  map (fun c => cell_eq c v) (values s).

Definition isna (c : cell) : bool :=
  match c with
  | CNone | CNum (NFloat FNaN) => true
  | _ => false
  end.

(** Sameness of keys in pandas' hash tables: as [==], and the missing
    values are one key each. *)
Definition cell_same (a b : cell) : bool :=
  match a, b with
  | CNone, CNone => true
  | CNum (NFloat FNaN), CNum (NFloat FNaN) => true
  | _, _ => cell_eq a b
  end.

(** [series.unique()]: the distinct values in order of first appearance. *)
Fixpoint unique (l : list cell) : list cell :=
  match l with
  | [] => []
  | x :: l' => x :: filter (fun y => negb (cell_same x y)) (unique l')
  end.

Definition count (x : cell) (l : list cell) : nat :=
  List.length (filter (cell_same x) l).

(** The order [numpy.sort] uses: numbers by value, strings by code point.
    A string and a number do not compare (TypeError). *)
Definition cell_le (a b : cell) : bool :=
  match a, b with
  | CStr s, CStr t => String.leb s t
  | CNum x, CNum y => float_le (float_of_number x) (float_of_number y)
  | _, _ => false
  end.

Definition is_str (c : cell) : bool :=
  match c with CStr _ => true | _ => false end.
Definition is_num (c : cell) : bool :=
  match c with CNum _ => true | _ => false end.

Definition sortable (l : list cell) : bool :=
  forallb is_str l || forallb is_num l.

Fixpoint insert_sorted (x : cell) (l : list cell) : list cell :=
  match l with
  | [] => [x]
  | y :: l' => if cell_le x y then x :: l else y :: insert_sorted x l'
  end.

Definition sort (l : list cell) : list cell :=
  fold_right insert_sorted [] l.

(** [series.mode()]: missing values are dropped, the values are counted in
    order of first appearance, those with the highest count are kept and
    then sorted; when they cannot be sorted (strings mixed with numbers)
    they stay in order of first appearance. *)
Definition mode (l : list cell) : list cell :=
  let vals := filter (fun c => negb (isna c)) l in
  let keys := unique vals in
  let top := fold_right Nat.max 0%nat (map (fun k => count k vals) keys) in
  let modes := filter (fun k => (count k vals =? top)%nat) keys in
  if sortable modes then sort modes else modes.

(** [pd.to_numeric(series, errors="coerce")] on one cell: what does not
    read as a number becomes NaN. *)
Definition to_numeric (c : cell) : pyfloat :=
  match c with
  | CNone => FNaN
  | CNum n => float_of_number n
  | CStr s =>
      let (neg, l) := skip_sign (strip (chars s)) in
      match scan_numeral l with
      | Some (m, e) => FFin neg m e
      | None =>
          let w := text (map lower l) in
          if String.eqb w "inf" || String.eqb w "infinity" then FInf neg
          else FNaN
      end
  end.

(** ** pandas_schema.validation *)

Inductive validation : Type :=
| InListValidation (options : list string)
| MatchesPatternValidation (pattern : string)
| InRangeValidation (min max : number)
| DateFormatValidation (date_format : string)
| CustomElementValidation (f : cell -> result bool) (message : string)
| CustomSeriesValidation (f : Series -> result (list bool)) (message : string)
| Or_ (a b : validation)
| And_ (a b : validation).

Fixpoint join (sep : string) (l : list string) : string :=
  match l with
  | [] => ""
  | [x] => x
  | x :: l' => (x ++ sep ++ join sep l')%string
  end.

Fixpoint message (v : validation) : string :=
  match v with
  | InListValidation options =>
      ("is not in the list of legal options (" ++ join ", " options ++ ")")%string
  | MatchesPatternValidation pattern =>
      ("does not match the pattern " ++ dquote ++ pattern ++ dquote)%string
  | InRangeValidation min max =>
      ("was not in the range [" ++ str (CNum min) ++ ", " ++ str (CNum max)
       ++ ")")%string
  | DateFormatValidation f =>
      ("does not match the date format string " ++ dquote ++ f ++ dquote)%string
  | CustomElementValidation _ m => m
  | CustomSeriesValidation _ m => m
  | Or_ a b =>
      ("(" ++ message a ++ ") <built-in function or_> (" ++ message b ++ ")")%string
  | And_ a b =>
      ("(" ++ message a ++ ") <built-in function and_> (" ++ message b ++ ")")%string
  end.

Fixpoint zip_with {A B C} (f : A -> B -> C) (l1 : list A) (l2 : list B)
  : list C :=
  match l1, l2 with
  | x :: l1', y :: l2' => f x y :: zip_with f l1' l2'
  | _, _ => []
  end.

Section Validate.

(** [valid_date fmt s]: whether [datetime.strptime(s, fmt)] returns.  The
    date parser is not modelled; it is a parameter of the validation. *)
Variable valid_date : string -> string -> bool.

(** [validation.validate(series)]: one boolean per row.
    - [InListValidation]: [series.isin(options)];
    - [MatchesPatternValidation]: [series.astype(str).str.contains(pattern)],
      that is [re.search] of the pattern in [str] of the cell;
    - [InRangeValidation]:
      [s = pd.to_numeric(series, errors="coerce"); (s >= min) & (s < max)];
    - [DateFormatValidation]: [series.astype(str).apply(valid_date)];
    - [CustomElementValidation]: [series.apply(f)];
    - [CustomSeriesValidation]: [f(series)];
    - [a | b], [a & b]: both sides are validated and joined row by row. *)
Fixpoint validate (v : validation) (s : Series) : result (list bool) :=
  match v with
  | InListValidation options =>
      Ok (map (fun c => match c with
                        | CStr x => existsb (String.eqb x) options
                        | _ => false
                        end) (values s))
  | MatchesPatternValidation pattern =>
      match Re.compile pattern with
      | Some r => Ok (map (fun c => Re.search r (chars (str c))) (values s))
      | None => Raise ReError
      end
  | InRangeValidation min max =>
      Ok (map (fun c => let x := to_numeric c in
                        float_le (float_of_number min) x
                        && float_lt x (float_of_number max)) (values s))
  | DateFormatValidation f =>
      Ok (map (fun c => valid_date f (str c)) (values s))
  | CustomElementValidation f _ => mapM f (values s)
  | CustomSeriesValidation f _ => f s
  | Or_ a b =>
      bind (validate a s) (fun x =>
      bind (validate b s) (fun y => Ok (zip_with orb x y)))
  | And_ a b =>
      bind (validate a s) (fun x =>
      bind (validate b s) (fun y => Ok (zip_with andb x y)))
  end.

Record ValidationWarning : Set :=
  { w_message : string; w_value : cell; w_row : Z; w_column : option string }.

(** [str(warning)] *)
Definition warning_str (w : ValidationWarning) : string :=
  match w_column w, w_value w with
  | Some c, CNone => w_message w
  | Some c, v =>
      ("{row: " ++ str_of_Z (w_row w) ++ ", column: " ++ dquote ++ c ++ dquote
       ++ "}: " ++ dquote ++ str v ++ dquote ++ " " ++ w_message w)%string
  | None, _ => w_message w
  end.

Fixpoint failing (msg col : string) (idx : list Z) (vals : list cell)
  (ok : list bool) : list ValidationWarning :=
  match idx, vals, ok with
  | i :: idx', v :: vals', b :: ok' =>
      let rest := failing msg col idx' vals' ok' in
      if b then rest
      else {| w_message := msg; w_value := v; w_row := i; w_column := Some col |}
           :: rest
  | _, _, _ => []
  end.

(** [validation.get_errors(series, column)] for a column that does not
    allow empty cells (the default): one warning for each row that fails. *)
Definition get_errors (v : validation) (s : Series)
  : result (list ValidationWarning) :=
  bind (validate v s)
       (fun ok => Ok (failing (message v) (name s) (index s) (values s) ok)).

(** [Column(name, validations)] *)
Record Column : Type :=
  Column_ { col_name : string; validations : list validation }.

(** [column.validate(series)]: the errors of every validation, in order. *)
Definition column_validate (c : Column) (s : Series)
  : result (list ValidationWarning) :=
  bind (mapM (fun v => get_errors v s) (validations c))
       (fun ess => Ok (concat ess)).

Fixpoint insert_by_row (w : ValidationWarning) (l : list ValidationWarning)
  : list ValidationWarning :=
  match l with
  | [] => [w]
  | x :: l' => if (w_row w <? w_row x)%Z then w :: l
               else x :: insert_by_row w l'
  end.

(** [sorted(errors, key=lambda e: e.row)]; the sort is stable. *)
Definition sorted_by_row (l : list ValidationWarning) : list ValidationWarning :=
  fold_right insert_by_row [] l.

Definition structural (msg : string) : ValidationWarning :=
  {| w_message := msg; w_value := CNone; w_row := (-1)%Z; w_column := None |}.

Definition str_of_nat (n : nat) : string := str_of_N (N.of_nat n).

(** The schema's columns are paired with the frame's by name; the first
    column the frame lacks ends the pairing. *)
Fixpoint pair_columns (schema : list Column) (df : DataFrame)
  : string + list (Series * Column) :=
  match schema with
  | [] => inr []
  | c :: rest =>
      match lookup (col_name c) (df_columns df) with
      | None => inl (col_name c)
      | Some vs =>
          match pair_columns rest df with
          | inl n => inl n
          | inr ps =>
              inr (({| name := col_name c; index := df_index df;
                       values := vs |}, c) :: ps)
          end
      end
  end.

(** [Schema(columns).validate(df)] with the default [ordered=False]. *)
Definition schema_validate (schema : list Column) (df : DataFrame)
  : result (list ValidationWarning) :=
  let df_cols := List.length (df_columns df) in
  let schema_cols := List.length schema in
  if negb (df_cols =? schema_cols)%nat then
    Ok [ structural
           ("Invalid number of columns. The schema specifies "
            ++ str_of_nat schema_cols ++ ", but the data frame has "
            ++ str_of_nat df_cols)%string ]
  else
    match pair_columns schema df with
    | inl n =>
        Ok [ structural
               ("The column " ++ n
                ++ " exists in the schema but not in the data frame")%string ]
    | inr column_pairs =>
        bind (mapM (fun p => column_validate (snd p) (fst p)) column_pairs)
             (fun ess => Ok (sorted_by_row (concat ess)))
    end.

End Validate.

End Pd.

Export Pd.

(* ================================================================== *)
(** * The notebook *)
(* ================================================================== *)

Declare Scope validation_scope.
Delimit Scope validation_scope with validation.
Infix "|:" := Or_ (at level 50, left associativity) : validation_scope.
Infix "&:" := And_ (at level 40, left associativity) : validation_scope.
Local Open Scope validation_scope.

(** ** Column headers *)

(** What one round of the header loop prints. *)
Inductive header_report : Set :=
| ShouldBeMoved (column : string) (k ind : nat)
| NotAccepted (column should_be : string)
| NeedsDeleted (column : string).

(** The printed line, as the f-strings build it. *)
Definition report_str (r : header_report) : string :=
  match r with
  | ShouldBeMoved column k ind =>
      (column ++ " should be moved from position " ++ str_of_nat k ++ " to "
       ++ str_of_nat ind)%string
  | NotAccepted column should_be =>
      (column ++ " not an accepted header. Should be '" ++ should_be ++ "'")%string
  | NeedsDeleted column =>
      (column ++ " needs to be deleted.")%string
  end.

Definition report_column (r : header_report) : string :=
  match r with
  | ShouldBeMoved column _ _ => column
  | NotAccepted column _ => column
  | NeedsDeleted column => column
  end.

(** [column_headers.index(column)] *)
Fixpoint tuple_index (x : string) (l : list string) : option nat :=
  match l with
  | [] => None
  | y :: l' => if String.eqb y x then Some 0%nat
               else option_map S (tuple_index x l')
  end.

(** The body of the loop for one [(k, column)]: [column_headers[k]] raises
    IndexError past the end of the tuple, and the handler prints. *)
Definition check_header (column_headers : list string) (k : nat)
  (column : string) : list header_report :=
  match nth_error column_headers k with
  | None => [ NeedsDeleted column ]
  | Some expected =>
      if negb (String.eqb column expected) then
        match tuple_index column column_headers with
        | Some ind => [ ShouldBeMoved column k ind ]
        | None => [ NotAccepted column expected ]
        end
      else []
  end.

(** [for k, column in enumerate(columns)] from position [k]. *)
Fixpoint header_loop (column_headers : list string) (k : nat)
  (columns : list string) : list header_report :=
  match columns with
  | [] => []
  | column :: rest =>
      check_header column_headers k column
      ++ header_loop column_headers (S k) rest
  end.

(** The loop over the headers [columns] of the sheet. *)
Definition check_headers (column_headers columns : list string)
  : list header_report :=
  header_loop column_headers 0 columns.

(** The header cell of the notebook: [column_headers] comes from
    [ColumnHeaders.csv], the columns from the summary sheet. *)
Definition header_check (column_headers : list string)
  (summary_sheet : DataFrame) : list header_report :=
  check_headers column_headers (columns summary_sheet).

(** ** Custom validators *)

Definition check_decimal (dec : cell) : result bool :=
  try_except (bind (Py.Decimal dec) (fun _ => Ok true))
             InvalidOperation (Ok false).

Definition check_int (num : cell) : result bool :=
  try_except (bind (Py.int num) (fun _ => Ok true))
             ValueError (Ok false).

Definition check_len (flag : cell) : bool :=
  let flag := str flag in
  if (len flag =? 17)%nat || (len flag =? 8)%nat then true else false.

Definition DecimalValidation : validation :=
  CustomElementValidation (fun d => check_decimal d) "is not decimal".
Definition IntValidation : validation :=
  CustomElementValidation (fun d => check_int d) "is not an integer".
Definition LengthValidation : validation :=
  CustomElementValidation (fun d => Ok (check_len d)) "is the wrong length".

(** [series == series.mode()[0]]; the mode of a series without values is
    empty and has no label 0. *)
Definition is_same (series : Series) : result (list bool) :=
  match mode (values series) with
  | m0 :: _ => Ok (series_eq series m0)
  | [] => Raise KeyError
  end.

Definition IsSameValidation : validation :=
  CustomSeriesValidation is_same "is not the same as other rows".

(** ** Validation schema *)

Section Notebook.

(** The accepted cruise names ([CruiseInformation.csv], column CUID) and
    the date parser behind [DateFormatValidation]. *)
Variable cruise_names : list string.
Variable valid_date : string -> string -> bool.

Definition schema : list Column :=
  [
    Column_ "Cruise"
      [ InListValidation cruise_names |: MatchesPatternValidation "-9999999" ];
    Column_ "Station"
      [ IntValidation ];
    Column_ "Target Asset" [];
    Column_ "Start Latitude [degrees]"
      [ InRangeValidation (NInt (-90)) (NInt 90) ];
    Column_ "Start Longitude [degrees]"
      [ InRangeValidation (NInt (-180)) (NInt 180) ];
    Column_ "Start Time [UTC]"
      [ DateFormatValidation "%Y-%m-%dT%H:%M:%S.%fZ" ];
    Column_ "Cast"
      [ IntValidation ];
    Column_ "Cast Flag"
      [ LengthValidation;
        MatchesPatternValidation "\*0|1{16}"
        |: MatchesPatternValidation "-9999999" ];
    Column_ "Bottom Depth at Start Position [m]"
      [ InRangeValidation (NInt 0) (NInt 6000) |: MatchesPatternValidation "-9999999" ];
    Column_ "CTD File"
      [ MatchesPatternValidation ".*\.hex$" |: MatchesPatternValidation "-9999999" ];
    Column_ "CTD File Flag"
      [ LengthValidation;
        MatchesPatternValidation "\*(0|1){16}"
        |: MatchesPatternValidation "-9999999" ];
    Column_ "Niskin/Bottle Position"
      [ IntValidation;
        InRangeValidation (NInt 0) (NInt 25) |: MatchesPatternValidation "-9999999" ];
    Column_ "Niskin Flag"
      [ LengthValidation;
        MatchesPatternValidation "\*(0|1){16}"
        |: MatchesPatternValidation "-9999999" ];
    Column_ "CTD Bottle Closure Time [UTC]"
      [ DateFormatValidation "%Y-%m-%dT%H:%M:%S.%fZ"
        |: MatchesPatternValidation "-9999999" ];
    Column_ "CTD Pressure [db]"
      [ DecimalValidation;
        InRangeValidation (NInt 0) (NInt 6000) |: MatchesPatternValidation "-9999999" ];
    Column_ "CTD Pressure Flag"
      [ MatchesPatternValidation "\*0|1{16}" |: MatchesPatternValidation "-9999999" ];
    Column_ "CTD Depth [m]"
      [ DecimalValidation;
        InRangeValidation (NInt 0) (NInt 6000) |: MatchesPatternValidation "-9999999" ];
    Column_ "CTD Latitude [deg]"
      [ DecimalValidation;
        InRangeValidation (NInt (-90)) (NInt 90)
        |: MatchesPatternValidation "-9999999" ];
    Column_ "CTD Longitude [deg]"
      [ DecimalValidation;
        InRangeValidation (NInt (-180)) (NInt 180)
        |: MatchesPatternValidation "-9999999" ];
    Column_ "CTD Temperature 1 [deg C]"
      [ DecimalValidation;
        InRangeValidation (NInt 0) (NInt 35) |: MatchesPatternValidation "-9999999" ];
    Column_ "CTD Temperature 1 Flag"
      [ LengthValidation;
        MatchesPatternValidation "\*(0|1){16}"
        |: MatchesPatternValidation "-9999999" ];
    Column_ "CTD Temperature 2 [deg C]"
      [ DecimalValidation;
        InRangeValidation (NInt 0) (NInt 35) |: MatchesPatternValidation "-9999999" ];
    Column_ "CTD Temperature 2 Flag"
      [ LengthValidation;
        MatchesPatternValidation "\*(0|1){16}"
        |: MatchesPatternValidation "-9999999" ];
    Column_ "CTD Conductivity 1 [S/m]"
      [ DecimalValidation;
        InRangeValidation (NInt 0) (NInt 6) |: MatchesPatternValidation "-9999999" ];
    Column_ "CTD Conductivity 1 Flag"
      [ LengthValidation;
        MatchesPatternValidation "\*(0|1){16}"
        |: MatchesPatternValidation "-9999999" ];
    Column_ "CTD Conductivity 2 [S/m]"
      [ DecimalValidation;
        InRangeValidation (NInt 0) (NInt 6) |: MatchesPatternValidation "-9999999" ];
    Column_ "CTD Conductivity 2 Flag"
      [ LengthValidation;
        MatchesPatternValidation "\*(0|1){16}"
        |: MatchesPatternValidation "-9999999" ];
    Column_ "CTD Salinity 1 [psu]"
      [ DecimalValidation;
        InRangeValidation (NInt 31) (NInt 37) |: MatchesPatternValidation "-9999999" ];
    Column_ "CTD Salinity 2 [psu]"
      [ DecimalValidation;
        InRangeValidation (NInt 31) (NInt 37) |: MatchesPatternValidation "-9999999" ];
    Column_ "CTD Oxygen [mL/L]"
      [ DecimalValidation;
        InRangeValidation (NInt 0) (NInt 9) |: MatchesPatternValidation "-9999999" ];
    Column_ "CTD Oxygen Flag"
      [ LengthValidation;
        MatchesPatternValidation "\*(0|1){16}"
        |: MatchesPatternValidation "-9999999" ];
    Column_ "CTD Oxygen Saturation [mL/L]"
      [ DecimalValidation;
        InRangeValidation (NInt 4) (NInt 9) |: MatchesPatternValidation "-9999999" ];
    Column_ "CTD Fluorescence [mg/m^3]"
      [ DecimalValidation;
        InRangeValidation (NInt (-1)) (NInt 10)
        |: MatchesPatternValidation "-9999999" ];
    Column_ "CTD Fluorescence Flag"
      [ LengthValidation;
        MatchesPatternValidation "\*(0|1){16}"
        |: MatchesPatternValidation "-9999999" ];
    Column_ "CTD Beam Attenuation [1/m]"
      [ DecimalValidation;
        InRangeValidation (NFloat (FFin true 1 (-1))) (NInt 1)
        |: MatchesPatternValidation "-9999999" ];
    Column_ "CTD Beam Transmission [%]"
      [ DecimalValidation;
        InRangeValidation (NInt (-1)) (NInt 101)
        |: MatchesPatternValidation "-9999999" ];
    Column_ "CTD Transmissometer Flag"
      [ LengthValidation;
        MatchesPatternValidation "\*(0|1){16}"
        |: MatchesPatternValidation "-9999999" ];
    Column_ "CTD pH"
      [ MatchesPatternValidation "-9999999" ];
    Column_ "CTD pH Flag"
      [ MatchesPatternValidation "-9999999" ];
    Column_ "Discrete Oxygen [mL/L]"
      [ DecimalValidation;
        InRangeValidation (NInt 0) (NInt 9) |: MatchesPatternValidation "-9999999" ];
    Column_ "Discrete Oxygen Flag"
      [ LengthValidation;
        MatchesPatternValidation "\*(0|1){16}"
        |: MatchesPatternValidation "-9999999" ];
    Column_ "Discrete Oxygen Replicate Flag"
      [ LengthValidation;
        MatchesPatternValidation "\*(0|1){16}"
        |: MatchesPatternValidation "-9999999" ];
    Column_ "Discrete Chlorophyll [ug/L]"
      [ DecimalValidation &: InRangeValidation (NInt 0) (NInt 10)
        |: MatchesPatternValidation "-9999999"
        |: MatchesPatternValidation "[0-9]{2}/[0-9]{2}$" ];
    Column_ "Discrete Phaeopigment [ug/L]"
      [ DecimalValidation &: InRangeValidation (NInt 0) (NInt 10)
        |: MatchesPatternValidation "-9999999"
        |: MatchesPatternValidation "[0-9]{2}/[0-9]{2}$" ];
    Column_ "Discrete Fo/Fa Ratio"
      [ MatchesPatternValidation "-9999999" ];
    Column_ "Discrete Fluorescence Flag"
      [ LengthValidation;
        MatchesPatternValidation "\*(0|1){16}"
        |: MatchesPatternValidation "-9999999" ];
    Column_ "Discrete Fluorescence Replicate Flag"
      [ LengthValidation;
        MatchesPatternValidation "\*(0|1){16}"
        |: MatchesPatternValidation "-9999999" ];
    Column_ "Discrete Phosphate [uM]"
      [ InRangeValidation (NInt 0) (NInt 5)
        |: MatchesPatternValidation "<\d.\d{2}"
        |: MatchesPatternValidation "-9999999" ];
    Column_ "Discrete Silicate [uM]"
      [ InRangeValidation (NInt 0) (NInt 150)
        |: MatchesPatternValidation "<\d.\d{2}"
        |: MatchesPatternValidation "-9999999" ];
    Column_ "Discrete Nitrate [uM]"
      [ InRangeValidation (NInt 0) (NInt 50)
        |: MatchesPatternValidation "<\d.\d{2}"
        |: MatchesPatternValidation "-9999999" ];
    Column_ "Discrete Nitrite [uM]"
      [ InRangeValidation (NInt 0) (NInt 10)
        |: MatchesPatternValidation "<\d.\d{2}"
        |: MatchesPatternValidation "-9999999" ];
    Column_ "Discrete Ammonium [uM]"
      [ InRangeValidation (NInt 0) (NInt 10)
        |: MatchesPatternValidation "<\d.\d{2}"
        |: MatchesPatternValidation "-9999999" ];
    Column_ "Discrete Nutrients Flag"
      [ LengthValidation;
        MatchesPatternValidation "\*(0|1){16}"
        |: MatchesPatternValidation "-9999999" ];
    Column_ "Discrete Nutrients Replicate Flag"
      [ LengthValidation;
        MatchesPatternValidation "\*(0|1){16}"
        |: MatchesPatternValidation "-9999999" ];
    Column_ "Discrete Salinity [psu]"
      [ InRangeValidation (NInt 31) (NInt 37) |: MatchesPatternValidation "-9999999" ];
    Column_ "Discrete Salinity Flag"
      [ LengthValidation;
        MatchesPatternValidation "\*(0|1){16}"
        |: MatchesPatternValidation "-9999999" ];
    Column_ "Discrete Salinity Replicate Flag"
      [ LengthValidation;
        MatchesPatternValidation "\*(0|1){16}"
        |: MatchesPatternValidation "-9999999" ];
    Column_ "Discrete Alkalinity [umol/kg]"
      [ InRangeValidation (NInt 2100) (NInt 2450)
        |: MatchesPatternValidation "-9999999" ];
    Column_ "Discrete Alkalinity Flag"
      [ LengthValidation;
        MatchesPatternValidation "\*(0|1){16}"
        |: MatchesPatternValidation "-9999999" ];
    Column_ "Discrete Alkalinity Replicate Flag"
      [ LengthValidation;
        MatchesPatternValidation "\*(0|1){16}"
        |: MatchesPatternValidation "-9999999" ];
    Column_ "Discrete DIC [umol/kg]"
      [ InRangeValidation (NInt 1900) (NInt 2450)
        |: MatchesPatternValidation "-9999999" ];
    Column_ "Discrete DIC Flag"
      [ LengthValidation;
        MatchesPatternValidation "\*(0|1){16}"
        |: MatchesPatternValidation "-9999999" ];
    Column_ "Discrete DIC Replicate Flag"
      [ LengthValidation;
        MatchesPatternValidation "\*(0|1){16}"
        |: MatchesPatternValidation "-9999999" ];
    Column_ "Discrete pCO2 [uatm]"
      [ InRangeValidation (NInt 200) (NInt 1200)
        |: MatchesPatternValidation "-9999999" ];
    Column_ "pCO2 Analysis Temp [deg C]"
      [ DecimalValidation;
        InRangeValidation (NInt 20) (NInt 26) |: MatchesPatternValidation "-9999999" ];
    Column_ "Discrete pCO2 Flag"
      [ LengthValidation;
        MatchesPatternValidation "\*(0|1){16}"
        |: MatchesPatternValidation "-9999999" ];
    Column_ "Discrete pCO2 Replicate Flag"
      [ LengthValidation;
        MatchesPatternValidation "\*(0|1){16}"
        |: MatchesPatternValidation "-9999999" ];
    Column_ "Discrete pH [Total scale]"
      [ InRangeValidation (NInt 7) (NInt 9) |: MatchesPatternValidation "-9999999" ];
    Column_ "pH Analysis Temp [deg C]"
      [ DecimalValidation;
        InRangeValidation (NInt 24) (NInt 26) |: MatchesPatternValidation "-9999999" ];
    Column_ "Discrete pH Flag"
      [ LengthValidation;
        MatchesPatternValidation "\*(0|1){16}"
        |: MatchesPatternValidation "-9999999" ];
    Column_ "Discrete pH Replicate Flag"
      [ LengthValidation;
        MatchesPatternValidation "\*(0|1){16}"
        |: MatchesPatternValidation "-9999999" ];
    Column_ "Calculated Alkalinity [umol/kg]"
      [ MatchesPatternValidation "-9999999" ];
    Column_ "Calculated DIC [umol/kg]"
      [ MatchesPatternValidation "-9999999" ];
    Column_ "Calculated pCO2 [uatm]"
      [ MatchesPatternValidation "-9999999" ];
    Column_ "Calculated pH"
      [ MatchesPatternValidation "-9999999" ];
    Column_ "Calculated CO2aq [umol/kg]"
      [ MatchesPatternValidation "-9999999" ];
    Column_ "Calculated Bicarb [umol/kg]"
      [ MatchesPatternValidation "-9999999" ];
    Column_ "Calculated CO3 [umol/kg]"
      [ MatchesPatternValidation "-9999999" ];
    Column_ "Calculated Omega-C"
      [ MatchesPatternValidation "-9999999" ];
    Column_ "Calculated Omega-A"
      [ MatchesPatternValidation "-9999999" ]
  ].

(** [errors = schema.validate(summary_sheet)] *)
Definition errors (summary_sheet : DataFrame) : result (list ValidationWarning) :=
  schema_validate valid_date schema summary_sheet.

(** ** Metadata columns *)

Definition metadata_columns : list string :=
  [ "Cruise"; "Station"; "Target Asset"; "Start Latitude [degrees]";
    "Start Longitude [degrees]"; "Start Time [UTC]"; "Cast";
    "Bottom Depth at Start Position [m]"; "CTD File" ].

Definition metadata_schema : list Column :=
  [ Column_ "Cruise" [ IsSameValidation ];
    Column_ "Station" [ IsSameValidation ];
    Column_ "Target Asset" [ IsSameValidation ];
    Column_ "Start Latitude [degrees]" [ IsSameValidation ];
    Column_ "Start Longitude [degrees]" [ IsSameValidation ];
    Column_ "Start Time [UTC]" [ IsSameValidation ];
    Column_ "Cast" [ IsSameValidation ];
    Column_ "Bottom Depth at Start Position [m]" [ IsSameValidation ];
    Column_ "CTD File" [ IsSameValidation ] ].

(** A loop whose body prints and may raise: the lines printed so far and
    the exception that ended the loop, if any. *)
Fixpoint for_each {X E : Type} (body : X -> list E * option exn) (l : list X)
  : list E * option exn :=
  match l with
  | [] => ([], None)
  | x :: l' =>
      match body x with
      | (out, Some e) => (out, Some e)
      | (out, None) => let (out', r) := for_each body l' in (out ++ out', r)
      end
  end.

(** The station-by-station loop.  It prints [str(error)] for each error;
    beside each printed error the trace keeps the values of the loop
    variables [cruise] and [station] of the round that printed it. *)
Definition station_loop (summary_sheet : DataFrame)
  : list (cell * cell * ValidationWarning) * option exn :=
  match get_columns summary_sheet metadata_columns with
  | Raise e => ([], Some e)
  | Ok metadata =>
      match get_column metadata "Cruise" with
      | Raise e => ([], Some e)
      | Ok cruises =>
          for_each
            (fun cruise =>
               let cruise_data := filter_rows metadata (series_eq cruises cruise) in
               match get_column cruise_data "Station" with
               | Raise e => ([], Some e)
               | Ok stations =>
                   for_each
                     (fun station =>
                        let station_data :=
                          filter_rows cruise_data (series_eq stations station) in
                        match schema_validate valid_date metadata_schema
                                station_data with
                        | Raise e => ([], Some e)
                        | Ok merrors =>
                            (map (fun error => (cruise, station, error)) merrors,
                             None)
                        end)
                     (unique (values stations))
               end)
            (unique (values cruises))
      end
  end.

(** The text the loop prints. *)
Definition station_loop_printed (summary_sheet : DataFrame) : list string :=
  map (fun t => warning_str (snd t)) (fst (station_loop summary_sheet)).

End Notebook.

(** ** Printing the errors *)

(** [p] is a prefix of [s]. *)
Fixpoint starts_with (p s : list ascii) : bool :=
  match p, s with
  | [], _ => true
  | a :: p', b :: s' => Ascii.eqb a b && starts_with p' s'
  | _ :: _, [] => false
  end.

(** [p] occurs in [s]. *)
Fixpoint occurs (p s : list ascii) : bool :=
  starts_with p s || match s with
                     | [] => false
                     | _ :: s' => occurs p s'
                     end.

(** [sub in x] where [x] is a string or None: on None it raises
    TypeError. *)
Definition str_in (sub : string) (x : option string) : result bool :=
  match x with
  | Some s => Ok (occurs (chars sub) (chars s))
  | None => Raise TypeError
  end.

(** One round of the loop that prints the errors: errors of the columns
    whose name contains Calculated, Cruise or CTD Beam Attenuation are
    passed over, the others are printed.  [or] evaluates its right side
    only when the left side is false. *)
Definition print_error (error : ValidationWarning) : list string * option exn :=
  match bind (str_in "Calculated" (w_column error))
             (fun a => if a then Ok true
                       else str_in "Cruise" (w_column error)) with
  | Raise e => ([], Some e)
  | Ok true => ([], None)
  | Ok false =>
      match str_in "CTD Beam Attenuation" (w_column error) with
      | Raise e => ([], Some e)
      | Ok true => ([], None)
      | Ok false => ([ warning_str error ], None)
      end
  end.

(** [for error in errors: ...] *)
Definition print_errors (errors : list ValidationWarning)
  : list string * option exn :=
  for_each print_error errors.

(* ================================================================== *)
(** * Vocabulary of the statements *)
(* ================================================================== *)

(** A date parser for runs in which no date column is validated. *)
Definition any_date : string -> string -> bool := fun _ _ => true.

Fixpoint find_column (n : string) (cs : list Column) : option Column :=
  match cs with
  | [] => None
  | c :: cs' => if String.eqb (col_name c) n then Some c else find_column n cs'
  end.

(** The cell of column [col] in the row at position [i] of the frame. *)
Definition cell_at (df : DataFrame) (col : string) (i : nat) : option cell :=
  match lookup col (df_columns df) with
  | Some vs => nth_error vs i
  | None => None
  end.

(** A series of one column, rows labelled from 0. *)
Definition series_of (n : string) (vs : list cell) : Series :=
  {| name := n; index := map Z.of_nat (seq 0 (List.length vs)); values := vs |}.

(** The value of a finite number. *)
Definition number_value (n : number) : option Q :=
  match float_of_number n with
  | FFin neg m e => Some (float_value neg m e)
  | _ => None
  end.

(** Whether one cell passes a validation that looks at cells one by one. *)
Definition passes (v : validation) (c : cell) : result bool :=
  match validate any_date v (series_of "" [c]) with
  | Ok [b] => Ok b
  | Ok _ => Ok false
  | Raise e => Raise e
  end.

(** The patterns a validation searches for. *)
Fixpoint patterns_of (v : validation) : list string :=
  match v with
  | MatchesPatternValidation p => [p]
  | Or_ a b | And_ a b => patterns_of a ++ patterns_of b
  | _ => []
  end.

Definition column_patterns (c : Column) : list string :=
  flat_map patterns_of (validations c).

(** The distinct strings of a list, in order of first appearance. *)
Fixpoint distinct (l : list string) : list string :=
  match l with
  | [] => []
  | x :: l' => x :: filter (fun y => negb (String.eqb x y)) (distinct l')
  end.

Definition schema_patterns (cs : list Column) : list string :=
  distinct (flat_map column_patterns cs).

(** The names of the columns that use pattern [p]. *)
Definition columns_using (p : string) (cs : list Column) : list string :=
  map col_name
    (filter (fun c => existsb (String.eqb p) (column_patterns c)) cs).

(** The names of the columns with a validation whose message is [m] in the
    column's own list (not inside an [|] or [&]). *)
Definition columns_checking (m : string) (cs : list Column) : list string :=
  map col_name
    (filter (fun c => existsb (fun v => String.eqb m (message v))
                        (validations c)) cs).

(** The position in the unfiltered list of the [j]-th element that a mask
    keeps. *)
Fixpoint origin (mask : list bool) (j : nat) : nat :=
  match mask with
  | [] => 0%nat
  | true :: mask' =>
      match j with
      | O => 0%nat
      | S j' => S (origin mask' j')
      end
  | false :: mask' => S (origin mask' j)
  end.

(** A sheet of one cruise and one station holding the metadata columns:
    every column is constant except Cast, which holds [casts]. *)
Definition station_sheet (cruise : string) (station : Z) (casts : list Z)
  : DataFrame :=
  let n := List.length casts in
  {| df_index := map Z.of_nat (seq 0 n);
     df_columns :=
       [ ("Cruise", repeat (CStr cruise) n);
         ("Station", repeat (CInt station) n);
         ("Target Asset", repeat (CStr "GI01SUMO") n);
         ("Start Latitude [degrees]", repeat (CFloat (FFin false 5991 (-2))) n);
         ("Start Longitude [degrees]", repeat (CFloat (FFin true 3947 (-2))) n);
         ("Start Time [UTC]", repeat (CStr "2023-08-01T12:00:00.000Z") n);
         ("Cast", map CInt casts);
         ("Bottom Depth at Start Position [m]", repeat (CInt 2700) n);
         ("CTD File", repeat (CStr "cast001.hex") n) ] |}.

(** The error of a sheet whose third row has cast 2 and the others cast 1. *)
Definition cast_error : ValidationWarning :=
  {| w_message := "is not the same as other rows"; w_value := CInt 2;
     w_row := 2%Z; w_column := Some "Cast" |}.

(** The grouped flag pattern, parsed. *)
Definition flag_regex : Re.regex :=
  Re.Seq (Re.Lit "*") (Re.Repeat (Re.Alt (Re.Lit "0") (Re.Lit "1")) 16).

(** The text of a flag: a star and sixteen binary digits. *)
Definition is_flag_text (l : list ascii) : bool :=
  match l with
  | c :: bits =>
      Ascii.eqb c "*" && (List.length bits =? 16)%nat
      && forallb (fun d => Ascii.eqb d "0" || Ascii.eqb d "1") bits
  | [] => false
  end.

(** The columns of a schema that search for the grouped flag pattern. *)
Definition grouped_flag_columns (cs : list Column) : list Column :=
  filter (fun c => existsb (String.eqb "\*(0|1){16}") (column_patterns c)) cs.

(** The cells of a column that hold a value. *)
Definition present (l : list cell) : list cell :=
  filter (fun c => negb (isna c)) l.

Definition fill : string := "-9999999".

(** The fill pattern, parsed: eight literal characters in sequence. *)
Definition fill_regex : Re.regex :=
  Re.Seq (Re.Seq (Re.Seq (Re.Seq (Re.Seq (Re.Seq (Re.Seq
    (Re.Lit "-") (Re.Lit "9")) (Re.Lit "9")) (Re.Lit "9")) (Re.Lit "9"))
    (Re.Lit "9")) (Re.Lit "9")) (Re.Lit "9").

(** A sheet with one row: fill values everywhere, and [station] in the
    column Station. *)
Definition one_row_sheet (cs : list Column) (station : cell) : DataFrame :=
  {| df_index := [0%Z];
     df_columns :=
       map (fun c => (col_name c,
                      [ if String.eqb (col_name c) "Station" then station
                        else CStr fill ])) cs |}.

(** Whether the loop that prints the errors passes over an error. *)
Definition suppressed (w : ValidationWarning) : bool :=
  match w_column w with
  | Some c =>
      occurs (chars "Calculated") (chars c) || occurs (chars "Cruise") (chars c)
      || occurs (chars "CTD Beam Attenuation") (chars c)
  | None => false
  end.

(** A validation that looks at the cells one by one: no series validation
    inside. *)
Fixpoint elementwise (v : validation) : bool :=
  match v with
  | CustomSeriesValidation _ _ => false
  | Or_ a b | And_ a b => elementwise a && elementwise b
  | _ => true
  end.

Definition is_needs_deleted (r : header_report) : bool :=
  match r with
  | NeedsDeleted _ => true
  | _ => false
  end.

(** The columns of a schema that search for the fill value. *)
Definition fill_columns (cs : list Column) : list Column :=
  filter (fun c => existsb (String.eqb fill) (column_patterns c)) cs.

(** The pattern of the column CTD File, parsed. *)
Definition hex_regex : Re.regex :=
  Re.Seq (Re.Seq (Re.Seq (Re.Seq (Re.Seq (Re.Star Re.Any) (Re.Lit "."))
    (Re.Lit "h")) (Re.Lit "e")) (Re.Lit "x")) Re.Eol.

(** The ungrouped flag pattern, parsed. *)
Definition ungrouped_regex : Re.regex :=
  Re.Alt (Re.Seq (Re.Lit "*") (Re.Lit "0")) (Re.Repeat (Re.Lit "1") 16).


(* ================================================================== *)
(** * Properties *)
(* ================================================================== *)

(** ** Column headers *)

Lemma header_loop_In (column_headers : list string) (columns : list string) :
  forall k r,
    In r (header_loop column_headers k columns) ->
    exists i column,
      nth_error columns i = Some column /\
      In r (check_header column_headers (k + i) column).
Proof.
  induction columns as [|c rest IH]; intros k r H; simpl in H.
  - contradiction.
  - apply in_app_or in H. destruct H as [H|H].
    + exists 0%nat, c. rewrite Nat.add_0_r. split; [reflexivity|assumption].
    + destruct (IH _ _ H) as (i & column & Hn & Hr).
      exists (S i), column. rewrite Nat.add_succ_r. split; assumption.
Qed.

Lemma check_header_column column_headers k column r :
  In r (check_header column_headers k column) -> report_column r = column.
Proof.
  unfold check_header.
  destruct (nth_error column_headers k) as [e|].
  - destruct (negb (String.eqb column e)); [|intros []].
    destruct (tuple_index column column_headers); simpl;
      intros [<-|[]]; reflexivity.
  - simpl. intros [<-|[]]. reflexivity.
Qed.

Lemma header_loop_prefix (columns missing : list string) :
  forall k done_,
    List.length done_ = k ->
    header_loop (done_ ++ columns ++ missing) k columns = [].
Proof.
  induction columns as [|c rest IH]; intros k done_ Hk; simpl.
  - reflexivity.
  - unfold check_header.
    rewrite nth_error_app2 by lia.
    replace (k - List.length done_)%nat with 0%nat by lia. simpl.
    rewrite String.eqb_refl. simpl.
    specialize (IH (S k) (done_ ++ [c])).
    rewrite <- app_assoc in IH. simpl in IH. apply IH.
    rewrite length_app. simpl. lia.
Qed.

(** C6 (as the code has it): with expected headers A, B, C, the header loop
    prints, for actual A, C, B, that C should be moved from position 1 to 2
    and that B should be moved from position 2 to 1 (the position in the
    sheet first, the position in the expected headers second); for actual
    A, B, D that D is not an accepted header and should be C; for actual
    A, B, C, E that E needs to be deleted. *)
Theorem check_headers_literal_cases :
  check_headers ["A"; "B"; "C"] ["A"; "C"; "B"]
    = [ ShouldBeMoved "C" 1 2; ShouldBeMoved "B" 2 1 ]
  /\ map report_str (check_headers ["A"; "B"; "C"] ["A"; "C"; "B"])
     = [ "C should be moved from position 1 to 2";
         "B should be moved from position 2 to 1" ]
  /\ check_headers ["A"; "B"; "C"] ["A"; "B"; "D"] = [ NotAccepted "D" "C" ]
  /\ map report_str (check_headers ["A"; "B"; "C"] ["A"; "B"; "D"])
     = [ "D not an accepted header. Should be 'C'" ]
  /\ check_headers ["A"; "B"; "C"] ["A"; "B"; "C"; "E"] = [ NeedsDeleted "E" ]
  /\ map report_str (check_headers ["A"; "B"; "C"] ["A"; "B"; "C"; "E"])
     = [ "E needs to be deleted." ].
Proof. repeat split; reflexivity. Qed.

(** C6, as stated, fails: for actual A, C, B the loop does not report B as
    moved from position 1 to 2, nor C as moved from position 2 to 1. *)
Lemma check_headers_swap_reports :
  ~ In (ShouldBeMoved "B" 1 2) (check_headers ["A"; "B"; "C"] ["A"; "C"; "B"])
  /\ ~ In (ShouldBeMoved "C" 2 1) (check_headers ["A"; "B"; "C"] ["A"; "C"; "B"])
  /\ ~ In "B should be moved from position 1 to 2"
          (map report_str (check_headers ["A"; "B"; "C"] ["A"; "C"; "B"])).
Proof.
  repeat split; simpl; intros [H|[H|[]]]; discriminate H.
Qed.

(** C8 (as the code has it): the header loop visits the columns of the
    sheet only.  Every line it prints names a column of the sheet, and when
    the sheet's headers are a prefix of the expected headers it prints
    nothing: the expected columns the sheet lacks are not reported. *)
Theorem check_headers_reports_sheet_columns_only :
  forall column_headers columns : list string,
    (forall r, In r (check_headers column_headers columns) ->
               In (report_column r) columns)
    /\ (forall missing, check_headers (columns ++ missing) columns = []).
Proof.
  intros column_headers columns. split.
  - intros r H. apply header_loop_In in H.
    destruct H as (i & column & Hn & Hr).
    apply check_header_column in Hr. rewrite Hr.
    eapply nth_error_In. eassumption.
  - intros missing. apply (header_loop_prefix columns missing 0 []).
    reflexivity.
Qed.

(** C8, as stated, fails: with expected A, B, C and actual A, B the loop
    prints nothing, so the missing column C is not reported. *)
Lemma check_headers_missing_column_silent :
  check_headers ["A"; "B"; "C"] ["A"; "B"] = [].
Proof. reflexivity. Qed.

(** ** Element validators *)

Lemma check_len_spec (c : cell) :
  check_len c = true <-> (len (str c) = 17 \/ len (str c) = 8)%nat.
Proof.
  unfold check_len.
  destruct (len (str c) =? 17)%nat eqn:E17; simpl.
  - apply Nat.eqb_eq in E17. tauto.
  - destruct (len (str c) =? 8)%nat eqn:E8.
    + apply Nat.eqb_eq in E8. tauto.
    + apply Nat.eqb_neq in E17. apply Nat.eqb_neq in E8.
      split; [discriminate | tauto].
Qed.

Lemma mapM_Ok {A B} (f : A -> B) (l : list A) :
  mapM (fun x => Ok (f x)) l = Ok (map f l).
Proof.
  induction l as [|x l IH]; simpl; [reflexivity|].
  rewrite IH. reflexivity.
Qed.

(** C10: [check_len] measures [str(flag)]: a value passes exactly when its
    rendering has 17 or 8 characters.  The fill string "-9999999" (8
    characters) passes; the float -9999999.0 renders as "-9999999.0" (10
    characters) and fails.  [LengthValidation] stands in each flag column's
    own list, beside the pattern-or-fill validation and not under its [|]
    (in Cast Flag and in the 25 columns of the grouped flag pattern): in the
    column Cast Flag the fill string raises no error, and the float fill
    raises the length error although it passes the fill pattern. *)
Theorem check_len_measures_str :
  (forall c, check_len c = true <-> (len (str c) = 8 \/ len (str c) = 17)%nat)
  /\ (forall s, validate any_date LengthValidation s
                = Ok (map check_len (values s)))
  /\ check_len (CStr "-9999999") = true
  /\ str (CFloat (FFin true 9999999 0)) = "-9999999.0"
  /\ len "-9999999.0" = 10%nat
  /\ check_len (CFloat (FFin true 9999999 0)) = false
  /\ (forall cruise_names,
        columns_checking "is the wrong length" (schema cruise_names)
        = "Cast Flag" :: map col_name (grouped_flag_columns (schema cruise_names)))
  /\ (forall cruise_names,
        exists c,
          find_column "Cast Flag" (schema cruise_names) = Some c
          /\ column_validate any_date c (series_of "Cast Flag" [CStr "-9999999"])
             = Ok []
          /\ column_validate any_date c
               (series_of "Cast Flag" [CFloat (FFin true 9999999 0)])
             = Ok [ {| w_message := "is the wrong length";
                       w_value := CFloat (FFin true 9999999 0);
                       w_row := 0%Z; w_column := Some "Cast Flag" |} ]).
Proof.
  split; [|split].
  - intros c. rewrite check_len_spec. tauto.
  - intros s. simpl. apply mapM_Ok.
  - do 4 (split; [reflexivity|]). split.
    + intros cn. vm_compute. reflexivity.
    + intros cn. eexists. split; [reflexivity|]. split; reflexivity.
Qed.

(** C9 (as the code has it): [check_int] passes every finite float, the
    fractional ones too, because [int] truncates them: [int(3.14)] is 3 and
    3.14 passes, while the string "3.14" fails. *)
Theorem check_int_passes_finite_floats :
  (forall neg m e, check_int (CFloat (FFin neg m e)) = Ok true)
  /\ Py.int (CFloat (FFin false 314 (-2))) = Ok 3%Z
  /\ check_int (CFloat (FFin false 314 (-2))) = Ok true
  /\ check_int (CStr "3.14") = Ok false.
Proof. repeat split. Qed.

(** C9, as stated, fails: the float NaN (an empty cell of a numeric column)
    does not pass, since [int] raises ValueError on it; and on an infinite
    float [int] raises OverflowError, which [check_int] does not catch. *)
Lemma check_int_nan_fails :
  check_int (CFloat FNaN) = Ok false
  /\ check_int (CFloat (FInf false)) = Raise OverflowError.
Proof. split; reflexivity. Qed.

(** C3: on the cell None, [int] and [Decimal] raise TypeError; [check_int]
    catches ValueError only and [check_decimal] InvalidOperation only, so
    both raise instead of returning False (as they do on a malformed
    string), and [schema.validate] raises on a sheet whose Station cell is
    None. *)
Theorem validators_raise_on_none :
  check_int CNone = Raise TypeError
  /\ check_decimal CNone = Raise TypeError
  /\ check_int (CStr "abc") = Ok false
  /\ check_decimal (CStr "abc") = Ok false
  /\ (forall cruise_names valid_date,
        errors cruise_names valid_date
          (one_row_sheet (schema cruise_names) CNone) = Raise TypeError).
Proof.
  split; [reflexivity|]. split; [reflexivity|].
  split; [reflexivity|]. split; [reflexivity|].
  intros cn vd. vm_compute. reflexivity.
Qed.

(** ** Range validation *)

Lemma passes_in_range lo hi c :
  passes (InRangeValidation lo hi) c
  = Ok (float_le (float_of_number lo) (to_numeric c)
        && float_lt (to_numeric c) (float_of_number hi)).
Proof. reflexivity. Qed.

Lemma number_value_finite n q :
  number_value n = Some q ->
  exists neg m e, float_of_number n = FFin neg m e /\ q = float_value neg m e.
Proof.
  unfold number_value. destruct (float_of_number n) as [neg m e| |];
    intros H; inversion H. eauto.
Qed.

Lemma Qle_bool_false_lt x y : Qle_bool x y = false <-> (y < x)%Q.
Proof.
  split; intros H.
  - apply Qnot_le_lt. intros Hle. apply Qle_bool_iff in Hle. congruence.
  - destruct (Qle_bool x y) eqn:E; [|reflexivity].
    apply Qle_bool_iff in E. exfalso. eapply Qlt_not_le; eassumption.
Qed.

(** C5 (as the code has it): [InRangeValidation(min, max)] never raises; a
    cell passes exactly when [to_numeric] reads a finite number [v] from it
    and [min <= v < max]: the lower bound is included, the upper bound is
    not.  [InRangeValidation(0, 35)] passes 0 and fails 35, -0.0001 and
    35.0001; a cell that is not a number fails. *)
Theorem in_range_lower_inclusive_upper_exclusive :
  (forall lo hi qlo qhi c,
      number_value lo = Some qlo -> number_value hi = Some qhi ->
      exists b,
        passes (InRangeValidation lo hi) c = Ok b
        /\ (b = true <->
            exists neg m e,
              to_numeric c = FFin neg m e
              /\ (qlo <= float_value neg m e)%Q
              /\ (float_value neg m e < qhi)%Q))
  /\ (forall valid_date lo hi s,
        exists bs, validate valid_date (InRangeValidation lo hi) s = Ok bs
                   /\ List.length bs = List.length (values s))
  /\ passes (InRangeValidation (NInt 0) (NInt 35)) (CInt 0) = Ok true
  /\ passes (InRangeValidation (NInt 0) (NInt 35)) (CInt 35) = Ok false
  /\ passes (InRangeValidation (NInt 0) (NInt 35))
       (CFloat (FFin true 1 (-4))) = Ok false
  /\ passes (InRangeValidation (NInt 0) (NInt 35))
       (CFloat (FFin false 350001 (-4))) = Ok false
  /\ passes (InRangeValidation (NInt 0) (NInt 35)) (CStr "abc") = Ok false
  /\ passes (InRangeValidation (NInt 0) (NInt 35)) CNone = Ok false.
Proof.
  split; [|split; [|repeat split]].
  - intros lo hi qlo qhi c Hlo Hhi.
    apply number_value_finite in Hlo. destruct Hlo as (n1 & m1 & e1 & Elo & ->).
    apply number_value_finite in Hhi. destruct Hhi as (n2 & m2 & e2 & Ehi & ->).
    rewrite passes_in_range, Elo, Ehi. eexists. split; [reflexivity|].
    destruct (to_numeric c) as [neg m e|neg|]; simpl.
    + rewrite andb_true_iff, negb_true_iff, Qle_bool_iff, Qle_bool_false_lt.
      split.
      * intros [H1 H2]. exists neg, m, e. auto.
      * intros (neg' & m' & e' & E & H1 & H2). inversion E; subst. auto.
    + split; [|intros (? & ? & ? & E & _); discriminate E].
      destruct neg; simpl; discriminate.
    + split; [discriminate|intros (? & ? & ? & E & _); discriminate E].
  - intros vd lo hi s. simpl. eexists. split; [reflexivity|].
    apply length_map.
Qed.

Lemma in_range_witness :
  exists b,
    passes (InRangeValidation (NInt 0) (NFloat (FFin false 355 (-1))))
      (CStr "35.0001") = Ok b
    /\ (b = true <->
        exists neg m e,
          to_numeric (CStr "35.0001") = FFin neg m e
          /\ (0 <= float_value neg m e)%Q
          /\ (float_value neg m e < 355 # 10)%Q).
Proof.
  apply (proj1 in_range_lower_inclusive_upper_exclusive
           (NInt 0) (NFloat (FFin false 355 (-1))) 0%Q (355 # 10)%Q
           (CStr "35.0001")); reflexivity.
Defined.

(** C5, as stated, fails: the upper bound does not pass.  35, as an integer,
    a float or a string, fails [InRangeValidation(0, 35)], and the column
    CTD Temperature 1 reports a cell holding 35. *)
Lemma in_range_upper_bound_fails :
  passes (InRangeValidation (NInt 0) (NInt 35)) (CInt 35) = Ok false
  /\ passes (InRangeValidation (NInt 0) (NInt 35))
       (CFloat (FFin false 35 0)) = Ok false
  /\ passes (InRangeValidation (NInt 0) (NInt 35)) (CStr "35") = Ok false
  /\ exists c w,
       find_column "CTD Temperature 1 [deg C]" (schema []) = Some c
       /\ column_validate any_date c
            (series_of "CTD Temperature 1 [deg C]" [CInt 35]) = Ok [w]
       /\ w_value w = CInt 35.
Proof.
  repeat split. do 2 eexists. repeat split.
Qed.

(** ** Pattern validation *)

Lemma star_loop_unfold round fuel s :
  Re.star_loop round (S fuel) s
  = s :: flat_map (Re.star_loop round fuel)
           (filter (fun t => (List.length t <? List.length s)%nat) (round s)).
Proof. reflexivity. Qed.

Lemma star_loop_head round fuel s : In s (Re.star_loop round fuel s).
Proof. destruct fuel; left; reflexivity. Qed.

Lemma star_loop_sound r :
  (forall s t, In t (Re.matches r s) ->
               exists w, s = w ++ t /\ Re.Matches r w t) ->
  forall fuel s t,
    In t (Re.star_loop (Re.matches r) fuel s) ->
    exists w, s = w ++ t /\ Re.Matches (Re.Star r) w t.
Proof.
  intros IH fuel. induction fuel as [|fuel IHf]; intros s t H.
  - destruct H as [<-|[]]. exists []. split; [reflexivity|constructor].
  - rewrite star_loop_unfold in H. destruct H as [<-|H].
    + exists []. split; [reflexivity|constructor].
    + apply in_flat_map in H. destruct H as (u & Hu & Ht).
      apply filter_In in Hu. destruct Hu as [Hu _].
      apply IH in Hu. destruct Hu as (w1 & Es & M1).
      apply IHf in Ht. destruct Ht as (w2 & Eu & M2). subst s u.
      exists (w1 ++ w2). split.
      * rewrite app_assoc. reflexivity.
      * constructor; assumption.
Qed.

Lemma star_loop_complete r :
  (forall w t, Re.Matches r w t -> In t (Re.matches r (w ++ t))) ->
  forall w t,
    Re.Matches (Re.Star r) w t ->
    forall fuel, (List.length (w ++ t) <= fuel)%nat ->
                 In t (Re.star_loop (Re.matches r) fuel (w ++ t)).
Proof.
  intros IH w t M. remember (Re.Star r) as sr eqn:E.
  induction M; inversion E; subst; intros fuel Hf.
  - apply star_loop_head.
  - destruct w1 as [|c w1].
    + apply IHM2; [reflexivity|assumption].
    + destruct fuel as [|fuel]; [simpl in Hf; lia|].
      rewrite star_loop_unfold. right.
      apply in_flat_map. exists (w2 ++ t). split.
      * apply filter_In. split.
        -- rewrite <- app_assoc. apply IH. assumption.
        -- apply Nat.ltb_lt. rewrite !length_app. simpl. lia.
      * apply IHM2; [reflexivity|].
        rewrite !length_app in *. simpl in Hf. lia.
Qed.

Lemma repeat_loop_sound r :
  (forall s t, In t (Re.matches r s) ->
               exists w, s = w ++ t /\ Re.Matches r w t) ->
  forall n s t,
    In t (Re.repeat_loop (Re.matches r) n s) ->
    exists w, s = w ++ t /\ Re.Matches (Re.Repeat r n) w t.
Proof.
  intros IH n. induction n as [|n IHn]; intros s t H; simpl in H.
  - destruct H as [<-|[]]. exists []. split; [reflexivity|constructor].
  - apply in_flat_map in H. destruct H as (u & Hu & Ht).
    apply IH in Hu. destruct Hu as (w1 & Es & M1).
    apply IHn in Ht. destruct Ht as (w2 & Eu & M2). subst s u.
    exists (w1 ++ w2). split.
    + rewrite app_assoc. reflexivity.
    + constructor; assumption.
Qed.

Lemma repeat_loop_complete r :
  (forall w t, Re.Matches r w t -> In t (Re.matches r (w ++ t))) ->
  forall n w t,
    Re.Matches (Re.Repeat r n) w t ->
    In t (Re.repeat_loop (Re.matches r) n (w ++ t)).
Proof.
  intros IH n w t M. remember (Re.Repeat r n) as rr eqn:E.
  revert n E. induction M; intros k E; inversion E; subst.
  - left. reflexivity.
  - simpl. apply in_flat_map. exists (w2 ++ t). split.
    + rewrite <- app_assoc. apply IH. assumption.
    + apply IHM2. reflexivity.
Qed.

Lemma matches_sound r :
  forall s t, In t (Re.matches r s) -> exists w, s = w ++ t /\ Re.Matches r w t.
Proof.
  induction r; intros s t H; simpl in H.
  - destruct H as [<-|[]]. exists []. split; [reflexivity|constructor].
  - destruct s as [|x s]; [contradiction|].
    destruct (Ascii.eqb x c) eqn:Ex; [|contradiction].
    apply Ascii.eqb_eq in Ex. destruct H as [<-|[]]. subst.
    exists [c]. split; [reflexivity|constructor].
  - destruct s as [|x s]; [contradiction|].
    destruct (Ascii.eqb x newline) eqn:Ex; [contradiction|].
    apply Ascii.eqb_neq in Ex. destruct H as [<-|[]].
    exists [x]. split; [reflexivity|constructor; assumption].
  - destruct s as [|x s]; [contradiction|].
    destruct (Re.in_class rs x) eqn:Ex; [|contradiction].
    destruct H as [<-|[]].
    exists [x]. split; [reflexivity|constructor; assumption].
  - apply in_flat_map in H. destruct H as (u & Hu & Ht).
    apply IHr1 in Hu. destruct Hu as (w1 & Es & M1).
    apply IHr2 in Ht. destruct Ht as (w2 & Eu & M2). subst s u.
    exists (w1 ++ w2). split.
    + rewrite app_assoc. reflexivity.
    + constructor; assumption.
  - apply in_app_or in H. destruct H as [H|H].
    + apply IHr1 in H. destruct H as (w & Es & M). exists w.
      split; [assumption|apply Re.MAltL; assumption].
    + apply IHr2 in H. destruct H as (w & Es & M). exists w.
      split; [assumption|apply Re.MAltR; assumption].
  - eapply star_loop_sound; eassumption.
  - eapply repeat_loop_sound; eassumption.
  - destruct s as [|c [|c' s]].
    + destruct H as [<-|[]]. exists []. split; [reflexivity|].
      constructor. left. reflexivity.
    + destruct (Ascii.eqb c newline) eqn:Ec; [|contradiction].
      apply Ascii.eqb_eq in Ec. destruct H as [<-|[]]. subst.
      exists []. split; [reflexivity|]. constructor. right. reflexivity.
    + contradiction.
Qed.

Lemma matches_complete r :
  forall w t, Re.Matches r w t -> In t (Re.matches r (w ++ t)).
Proof.
  induction r; intros w t M.
  - inversion M; subst. left. reflexivity.
  - inversion M; subst. simpl. rewrite Ascii.eqb_refl. left. reflexivity.
  - inversion M; subst. simpl.
    destruct (Ascii.eqb c newline) eqn:Ec.
    + apply Ascii.eqb_eq in Ec. contradiction.
    + left. reflexivity.
  - inversion M; subst. simpl.
    match goal with H : Re.in_class _ _ = true |- _ => rewrite H end.
    left. reflexivity.
  - inversion M; subst. simpl. apply in_flat_map. exists (w2 ++ t). split.
    + rewrite <- app_assoc. apply IHr1. assumption.
    + apply IHr2. assumption.
  - inversion M; subst; simpl; apply in_or_app.
    + left. apply IHr1. assumption.
    + right. apply IHr2. assumption.
  - simpl. apply star_loop_complete; [assumption|assumption|lia].
  - simpl. apply repeat_loop_complete; assumption.
  - inversion M; subst. simpl.
    match goal with H : _ \/ _ |- _ => destruct H as [->| ->] end.
    + left. reflexivity.
    + simpl. left. reflexivity.
Qed.

Lemma match_spec r s :
  Re.match_ r s = true <->
  exists mid post, s = mid ++ post /\ Re.Matches r mid post.
Proof.
  unfold Re.match_. split.
  - destruct (Re.matches r s) as [|t ts] eqn:E; [discriminate|]. intros _.
    destruct (matches_sound r s t) as (w & Es & M).
    + rewrite E. left. reflexivity.
    + exists w, t. split; assumption.
  - intros (mid & post & -> & M). apply matches_complete in M.
    destruct (Re.matches r (mid ++ post)); [contradiction|reflexivity].
Qed.

Lemma search_spec r s :
  Re.search r s = true <->
  exists pre mid post, s = pre ++ mid ++ post /\ Re.Matches r mid post.
Proof.
  induction s as [|c s IH]; simpl; rewrite orb_true_iff, match_spec.
  - split.
    + intros [(mid & post & E & M)|H]; [|discriminate].
      exists [], mid, post. split; assumption.
    + intros (pre & mid & post & E & M). left.
      destruct pre; [|discriminate]. exists mid, post. split; assumption.
  - rewrite IH. split.
    + intros [(mid & post & E & M)|(pre & mid & post & E & M)].
      * exists [], mid, post. split; assumption.
      * exists (c :: pre), mid, post. split; [|assumption].
        simpl. rewrite E. reflexivity.
    + intros (pre & mid & post & E & M). destruct pre as [|c' pre].
      * left. exists mid, post. split; assumption.
      * right. inversion E; subst. exists pre, mid, post.
        split; [reflexivity|assumption].
Qed.

Lemma chars_app (a b : string) : chars (a ++ b)%string = chars a ++ chars b.
Proof.
  induction a as [|c a IH]; simpl; [reflexivity|].
  unfold chars in *. simpl. rewrite IH. reflexivity.
Qed.

Lemma text_app (a b : list ascii) : text (a ++ b) = (text a ++ text b)%string.
Proof.
  induction a as [|c a IH]; simpl; [reflexivity|].
  unfold text in *. simpl. rewrite IH. reflexivity.
Qed.

Lemma text_chars (s : string) : text (chars s) = s.
Proof. apply string_of_list_ascii_of_string. Qed.

Lemma fill_regex_compiled : Re.compile fill = Some fill_regex.
Proof. reflexivity. Qed.

Lemma fill_regex_matches mid post :
  Re.Matches fill_regex mid post <-> mid = chars fill.
Proof.
  unfold fill_regex. split.
  - intros M.
    repeat match goal with
           | H : Re.Matches (Re.Seq _ _) _ _ |- _ => inversion H; subst; clear H
           | H : Re.Matches (Re.Lit _) _ _ |- _ => inversion H; subst; clear H
           end.
    reflexivity.
  - intros ->.
    change (chars fill)
      with ((((((([ "-" ] ++ [ "9" ]) ++ [ "9" ]) ++ [ "9" ]) ++ [ "9" ])
               ++ [ "9" ]) ++ [ "9" ]) ++ [ "9" ])%char.
    repeat constructor.
Qed.

Lemma passes_pattern p r c :
  Re.compile p = Some r ->
  passes (MatchesPatternValidation p) c = Ok (Re.search r (chars (str c))).
Proof.
  intros H. unfold passes. simpl. rewrite H. reflexivity.
Qed.

(** C1 (as the code has it): [MatchesPatternValidation(pattern)] searches:
    a cell passes exactly when the pattern matches some stretch of
    [str(cell)], wherever it starts and whatever comes before it.  What
    comes after it matters to [$] only.  The six patterns of the schema all
    parse.  The fill-pattern validator passes exactly the cells whose
    rendering contains -9999999. *)
Theorem pattern_validation_searches :
  (forall p r c,
      Re.compile p = Some r ->
      (passes (MatchesPatternValidation p) c = Ok true <->
       exists pre mid post,
         chars (str c) = pre ++ mid ++ post /\ Re.Matches r mid post))
  /\ (forall cruise_names,
        schema_patterns (schema cruise_names)
        = [ "-9999999"; "\*0|1{16}"; ".*\.hex$"; "\*(0|1){16}";
            "[0-9]{2}/[0-9]{2}$"; "<\d.\d{2}" ])
  /\ Forall (fun p => exists r, Re.compile p = Some r)
       [ "-9999999"; "\*0|1{16}"; ".*\.hex$"; "\*(0|1){16}";
         "[0-9]{2}/[0-9]{2}$"; "<\d.\d{2}" ]
  /\ (forall c,
        passes (MatchesPatternValidation "-9999999") c = Ok true <->
        exists pre post, str c = (pre ++ "-9999999" ++ post)%string).
Proof.
  split; [|split; [|split]].
  - intros p r c H. rewrite (passes_pattern p r c H).
    rewrite <- search_spec. split; [intros E; inversion E; reflexivity|].
    intros ->. reflexivity.
  - intros cn. reflexivity.
  - repeat constructor; eexists; reflexivity.
  - intros c.
    change (passes (MatchesPatternValidation "-9999999") c)
      with (passes (MatchesPatternValidation fill) c).
    rewrite (passes_pattern fill fill_regex c fill_regex_compiled).
    split.
    + intros E. assert (S : Re.search fill_regex (chars (str c)) = true)
        by (inversion E; reflexivity).
      apply search_spec in S. destruct S as (pre & mid & post & Ec & M).
      apply fill_regex_matches in M. subst mid.
      exists (text pre), (text post).
      rewrite <- (text_chars (str c)), Ec, !text_app, text_chars.
      reflexivity.
    + intros (pre & post & E).
      assert (S : Re.search fill_regex (chars (str c)) = true).
      { apply search_spec. exists (chars pre), (chars fill), (chars post).
        split; [|apply fill_regex_matches; reflexivity].
        rewrite E, !chars_app. reflexivity. }
      rewrite S. reflexivity.
Qed.

Lemma pattern_validation_witness :
  passes (MatchesPatternValidation "\*(0|1){16}") (CStr "*0101010101010101")
    = Ok true <->
  exists pre mid post,
    chars (str (CStr "*0101010101010101")) = pre ++ mid ++ post
    /\ Re.Matches
         (Re.Seq (Re.Lit "*") (Re.Repeat (Re.Alt (Re.Lit "0") (Re.Lit "1")) 16))
         mid post.
Proof.
  apply (proj1 pattern_validation_searches "\*(0|1){16}"). reflexivity.
Defined.

(** C1, as stated, fails: the fill pattern does not match the whole of
    "x-9999999y", and the fill-pattern validator passes it; so does the
    column Cruise, for any list of cruise names. *)
Lemma fill_pattern_passes_substring :
  Re.compile "-9999999" = Some fill_regex
  /\ Re.fullmatch fill_regex (chars "x-9999999y") = false
  /\ passes (MatchesPatternValidation "-9999999") (CStr "x-9999999y") = Ok true
  /\ exists c,
       find_column "Cruise" (schema []) = Some c
       /\ column_validate any_date c (series_of "Cruise" [CStr "x-9999999y"])
          = Ok [].
Proof.
  split; [reflexivity|]. split; [reflexivity|]. split; [reflexivity|].
  eexists. split; reflexivity.
Qed.

(** ** Flag patterns *)

Lemma repeat_two_lits a b n :
  forall w t,
    Re.Matches (Re.Repeat (Re.Alt (Re.Lit a) (Re.Lit b)) n) w t <->
    List.length w = n
    /\ forallb (fun d => Ascii.eqb d a || Ascii.eqb d b) w = true.
Proof.
  induction n as [|n IH]; intros w t; split.
  - intros M. inversion M; subst. split; reflexivity.
  - intros [Hl _]. destruct w; [constructor|discriminate].
  - intros M. inversion M as [| | | | | | | | | |r n' w1 w2 t' M1 M2|]; subst.
    apply IH in M2. destruct M2 as [Hl Hb].
    inversion M1 as [| | | | |r1 r2 w' t' ML|r1 r2 w' t' MR| | | | |]; subst.
    + inversion ML; subst. simpl. rewrite Ascii.eqb_refl, Hb.
      split; reflexivity.
    + inversion MR; subst. simpl. rewrite Ascii.eqb_refl, orb_true_r, Hb.
      split; reflexivity.
  - intros [Hl Hb]. destruct w as [|d w]; [discriminate|].
    simpl in Hl, Hb. apply andb_true_iff in Hb. destruct Hb as [Hd Hb].
    change (d :: w) with ([d] ++ w). constructor.
    + apply orb_true_iff in Hd. destruct Hd as [Hd|Hd];
        apply Ascii.eqb_eq in Hd; subst d.
      * apply Re.MAltL. constructor.
      * apply Re.MAltR. constructor.
    + apply IH. split; [lia|assumption].
Qed.

Lemma flag_regex_matches mid post :
  Re.Matches flag_regex mid post <-> is_flag_text mid = true.
Proof.
  unfold flag_regex, is_flag_text. split.
  - intros M. inversion M as [| | | |r1 r2 w1 w2 t M1 M2| | | | | | |]; subst.
    inversion M1; subst. apply repeat_two_lits in M2. destruct M2 as [Hl Hb].
    simpl. rewrite Hl, Hb. reflexivity.
  - destruct mid as [|c bits]; [discriminate|].
    rewrite !andb_true_iff, Nat.eqb_eq, Ascii.eqb_eq. intros [[-> Hl] Hb].
    change ("*"%char :: bits) with ([ "*"%char ] ++ bits). constructor.
    + constructor.
    + apply repeat_two_lits. split; assumption.
Qed.

Lemma is_flag_text_length l : is_flag_text l = true -> List.length l = 17%nat.
Proof.
  destruct l as [|c bits]; simpl; [discriminate|].
  rewrite !andb_true_iff, Nat.eqb_eq. intros [[_ H] _]. lia.
Qed.

Lemma len_chars s : len s = List.length (chars s).
Proof.
  unfold len, chars. induction s as [|c s IH]; simpl; congruence.
Qed.

Lemma get_errors_one_or_patterns valid_date p1 p2 r1 r2 n c :
  Re.compile p1 = Some r1 -> Re.compile p2 = Some r2 ->
  get_errors valid_date
    (MatchesPatternValidation p1 |: MatchesPatternValidation p2)
    (series_of n [c])
  = Ok (if Re.search r1 (chars (str c)) || Re.search r2 (chars (str c))
        then []
        else [ {| w_message :=
                    message (MatchesPatternValidation p1
                             |: MatchesPatternValidation p2);
                  w_value := c; w_row := 0%Z; w_column := Some n |} ]).
Proof.
  intros H1 H2. unfold get_errors. simpl validate. rewrite H1, H2.
  reflexivity.
Qed.

Lemma column_validate_two valid_date n v1 v2 s e1 e2 :
  get_errors valid_date v1 s = Ok e1 ->
  get_errors valid_date v2 s = Ok e2 ->
  column_validate valid_date (Column_ n [v1; v2]) s = Ok (e1 ++ e2 ++ []).
Proof.
  intros H1 H2. unfold column_validate.
  change (validations {| col_name := n; validations := [v1; v2] |})
    with [v1; v2].
  change (mapM (fun v => get_errors valid_date v s) [v1; v2])
    with (bind (get_errors valid_date v1 s)
            (fun y => bind (bind (get_errors valid_date v2 s)
                              (fun y2 => Ok [y2]))
                        (fun ys => Ok (y :: ys)))).
  rewrite H1, H2. reflexivity.
Qed.

Lemma get_errors_one_length valid_date n c :
  get_errors valid_date LengthValidation (series_of n [c])
  = Ok (if check_len c then []
        else [ {| w_message := "is the wrong length"; w_value := c;
                  w_row := 0%Z; w_column := Some n |} ]).
Proof. reflexivity. Qed.

Lemma flag_column_no_error valid_date n s :
  column_validate valid_date
    (Column_ n [ LengthValidation;
                 MatchesPatternValidation "\*(0|1){16}"
                 |: MatchesPatternValidation "-9999999" ])
    (series_of n [CStr s]) = Ok []
  <-> is_flag_text (chars s) = true
      \/ (check_len (CStr s) = true
          /\ exists pre post, s = (pre ++ "-9999999" ++ post)%string).
Proof.
  rewrite (column_validate_two valid_date n _ _ _ _ _
             (get_errors_one_length valid_date n (CStr s))
             (get_errors_one_or_patterns valid_date "\*(0|1){16}" "-9999999"
                flag_regex fill_regex n (CStr s) eq_refl eq_refl)).
  simpl str.
  assert (Hfill : Re.search fill_regex (chars s) = true <->
                  exists pre post, s = (pre ++ "-9999999" ++ post)%string).
  { rewrite search_spec. split.
    - intros (pre & mid & post & E & M). apply fill_regex_matches in M.
      subst mid. exists (text pre), (text post).
      rewrite <- (text_chars s), E, !text_app, text_chars. reflexivity.
    - intros (pre & post & E).
      exists (chars pre), (chars fill), (chars post).
      split; [|apply fill_regex_matches; reflexivity].
      rewrite E, !chars_app. reflexivity. }
  assert (Hflag : check_len (CStr s) = true ->
                  (Re.search flag_regex (chars s) = true <->
                   is_flag_text (chars s) = true)).
  { intros Hlen. apply check_len_spec in Hlen. simpl str in Hlen.
    rewrite len_chars in Hlen. rewrite search_spec. split.
    - intros (pre & mid & post & E & M). apply flag_regex_matches in M.
      pose proof (is_flag_text_length _ M) as L.
      rewrite E, !length_app, L in Hlen.
      destruct pre; [|simpl in Hlen; lia].
      destruct post; [|simpl in Hlen; lia].
      rewrite E, app_nil_r. assumption.
    - intros F. exists [], (chars s), []. rewrite app_nil_r.
      split; [reflexivity|apply flag_regex_matches; assumption]. }
  assert (Hlen17 : is_flag_text (chars s) = true -> check_len (CStr s) = true).
  { intros F. apply check_len_spec. left. simpl str.
    rewrite len_chars. apply is_flag_text_length. assumption. }
  destruct (check_len (CStr s)) eqn:Elen.
  - destruct (Re.search flag_regex (chars s)) eqn:Eflag;
      destruct (Re.search fill_regex (chars s)) eqn:Efill; simpl.
    + split; [intros _; left; apply Hflag; reflexivity|reflexivity].
    + split; [intros _; left; apply Hflag; reflexivity|reflexivity].
    + split; [intros _; right; split; [reflexivity|apply Hfill; reflexivity]
             |reflexivity].
    + split; [discriminate|]. intros [F|[_ F]].
      * apply Hflag in F; [discriminate|reflexivity].
      * apply Hfill in F. discriminate.
  - split.
    + destruct (Re.search flag_regex (chars s) || Re.search fill_regex (chars s));
        discriminate.
    + intros [F|[F _]]; [apply Hlen17 in F|]; discriminate.
Qed.

(** C2: the columns Cast Flag and CTD Pressure Flag search for the
    ungrouped pattern, which parses as ([\*0]) or ([1{16}]); the other flag
    columns search for the grouped pattern.  A 17-character cell that starts
    with "*0" and goes on with other characters raises no error in Cast Flag
    and CTD Pressure Flag, and raises one in CTD File Flag.  In every column
    with the grouped pattern a string raises no error exactly when it is a
    star and sixteen binary digits, or has 8 or 17 characters and contains
    the fill value. *)
Theorem flag_pattern_ungrouped_in_two_columns :
  Re.compile "\*0|1{16}"
    = Some (Re.Alt (Re.Seq (Re.Lit "*") (Re.Lit "0")) (Re.Repeat (Re.Lit "1") 16))
  /\ Re.compile "\*(0|1){16}" = Some flag_regex
  /\ (forall cruise_names,
        columns_using "\*0|1{16}" (schema cruise_names)
        = [ "Cast Flag"; "CTD Pressure Flag" ])
  /\ (forall cruise_names,
        exists c1 c2 c3 w,
          find_column "Cast Flag" (schema cruise_names) = Some c1
          /\ column_validate any_date c1
               (series_of "Cast Flag" [CStr "*0xxxxxxxxxxxxxxx"]) = Ok []
          /\ find_column "CTD Pressure Flag" (schema cruise_names) = Some c2
          /\ column_validate any_date c2
               (series_of "CTD Pressure Flag" [CStr "*0xxxxxxxxxxxxxxx"]) = Ok []
          /\ find_column "CTD File Flag" (schema cruise_names) = Some c3
          /\ column_validate any_date c3
               (series_of "CTD File Flag" [CStr "*0xxxxxxxxxxxxxxx"]) = Ok [w]
          /\ w_value w = CStr "*0xxxxxxxxxxxxxxx")
  /\ (forall cruise_names valid_date,
        List.length (grouped_flag_columns (schema cruise_names)) = 25%nat
        /\ Forall
             (fun c =>
                forall s,
                  column_validate valid_date c (series_of (col_name c) [CStr s])
                    = Ok []
                  <-> is_flag_text (chars s) = true
                      \/ (check_len (CStr s) = true
                          /\ exists pre post,
                               s = (pre ++ "-9999999" ++ post)%string))
             (grouped_flag_columns (schema cruise_names))).
Proof.
  split; [reflexivity|]. split; [reflexivity|]. split; [|split].
  - intros cn. reflexivity.
  - intros cn. do 4 eexists. repeat split.
  - intros cn vd. split; [reflexivity|].
    unfold grouped_flag_columns. simpl filter.
    repeat (apply Forall_cons; [intros s; apply flag_column_no_error|]).
    apply Forall_nil.
Qed.

(** ** The order and the sameness of cells *)

Lemma string_compare_trans s1 :
  forall s2 s3,
    String.compare s1 s2 <> Gt -> String.compare s2 s3 <> Gt ->
    String.compare s1 s3 <> Gt.
Proof.
  induction s1 as [|a s1 IH]; intros [|b s2] [|c s3]; simpl;
    try congruence.
  unfold Ascii.compare.
  destruct (N.compare_spec (N_of_ascii a) (N_of_ascii b)) as [E1|L1|G1];
    destruct (N.compare_spec (N_of_ascii b) (N_of_ascii c)) as [E2|L2|G2];
    try congruence; intros H1 H2;
    destruct (N.compare_spec (N_of_ascii a) (N_of_ascii c)) as [E3|L3|G3];
    try congruence; try lia.
  eapply IH; eassumption.
Qed.

Lemma string_leb_trans s1 s2 s3 :
  String.leb s1 s2 = true -> String.leb s2 s3 = true -> String.leb s1 s3 = true.
Proof.
  unfold String.leb. intros H1 H2.
  pose proof (string_compare_trans s1 s2 s3) as T.
  destruct (String.compare s1 s2); try discriminate;
    destruct (String.compare s2 s3); try discriminate;
    destruct (String.compare s1 s3); try reflexivity;
    exfalso; apply T; congruence.
Qed.

Lemma string_leb_refl s : String.leb s s = true.
Proof. destruct (String.leb_total s s); assumption. Qed.

Lemma float_le_trans a b c :
  float_le a b = true -> float_le b c = true -> float_le a c = true.
Proof.
  destruct a as [n1 m1 e1|[]|], b as [n2 m2 e2|[]|], c as [n3 m3 e3|[]|];
    simpl; try discriminate; try reflexivity.
  rewrite !Qle_bool_iff. apply Qle_trans.
Qed.

Lemma float_le_total a b :
  a <> FNaN -> b <> FNaN -> float_le a b = true \/ float_le b a = true.
Proof.
  destruct a as [n1 m1 e1|[]|], b as [n2 m2 e2|[]|]; simpl; intros Ha Hb;
    try congruence; auto.
  rewrite !Qle_bool_iff.
  destruct (Qlt_le_dec (float_value n1 m1 e1) (float_value n2 m2 e2)) as [H|H].
  - left. apply Qlt_le_weak. assumption.
  - right. assumption.
Qed.

Lemma float_eq_sym a b : float_eq a b = float_eq b a.
Proof. unfold float_eq. apply andb_comm. Qed.

Lemma float_eq_trans a b c :
  float_eq a b = true -> float_eq b c = true -> float_eq a c = true.
Proof.
  unfold float_eq. rewrite !andb_true_iff. intros [H1 H2] [H3 H4]. split.
  - eapply float_le_trans; eassumption.
  - eapply float_le_trans; eassumption.
Qed.

Lemma cell_eq_sym a b : cell_eq a b = cell_eq b a.
Proof.
  destruct a as [|s|x], b as [|t|y]; simpl; try reflexivity.
  - apply String.eqb_sym.
  - apply float_eq_sym.
Qed.

Lemma cell_eq_trans a b c :
  cell_eq a b = true -> cell_eq b c = true -> cell_eq a c = true.
Proof.
  destruct a as [|s|x], b as [|t|y], c as [|u|z]; simpl; try discriminate.
  - rewrite !String.eqb_eq. congruence.
  - apply float_eq_trans.
Qed.

Lemma cell_eq_not_na a b : cell_eq a b = true -> isna a = false /\ isna b = false.
Proof.
  destruct a as [|s|[x|[n m e|n|]]], b as [|t|[y|[n' m' e'|n'|]]];
    unfold float_eq; simpl; try discriminate; auto;
    repeat match goal with
           | |- context [if ?n then _ else _] => destruct n
           end; simpl; try discriminate; auto.
  destruct n; unfold float_eq; simpl; discriminate.
Qed.

Lemma cell_same_eq a b :
  isna a = false -> cell_same a b = cell_eq a b.
Proof.
  destruct a as [|s|[x|[n m e|n|]]]; simpl; try discriminate; reflexivity.
Qed.

Lemma cell_eq_refl a :
  isna a = false -> cell_eq a a = true.
Proof.
  destruct a as [|s|[x|f]]; simpl; try discriminate; intros H.
  - apply String.eqb_refl.
  - unfold float_eq. rewrite andb_diag. simpl. apply Qle_bool_iff, Qle_refl.
  - unfold float_eq. rewrite andb_diag.
    destruct f as [n m e|[]|]; simpl; try discriminate; try reflexivity.
    apply Qle_bool_iff, Qle_refl.
Qed.

Lemma cell_eq_le a b : cell_eq a b = true -> cell_le a b = true.
Proof.
  destruct a as [|s|x], b as [|t|y]; simpl; try discriminate.
  - rewrite String.eqb_eq. intros ->. apply string_leb_refl.
  - unfold float_eq. rewrite andb_true_iff. tauto.
Qed.

Lemma cell_le_trans a b c :
  cell_le a b = true -> cell_le b c = true -> cell_le a c = true.
Proof.
  destruct a as [|s|x], b as [|t|y], c as [|u|z]; simpl; try discriminate.
  - apply string_leb_trans.
  - apply float_le_trans.
Qed.

Lemma cell_le_total a b :
  isna a = false -> isna b = false ->
  (is_str a = true /\ is_str b = true) \/ (is_num a = true /\ is_num b = true) ->
  cell_le a b = true \/ cell_le b a = true.
Proof.
  destruct a as [|s|x], b as [|t|y]; simpl; intros Ha Hb [[H1 H2]|[H1 H2]];
    try discriminate.
  - apply String.leb_total.
  - apply float_le_total.
    + destruct x as [z|[n m e|n|]]; simpl in *; unfold float_of_Z; congruence.
    + destruct y as [z|[n m e|n|]]; simpl in *; unfold float_of_Z; congruence.
Qed.

(** ** The mode of a column *)

Lemma present_not_na l c : In c (present l) -> isna c = false.
Proof.
  unfold present. intros H. apply filter_In in H.
  destruct H as [_ H]. apply negb_true_iff in H. assumption.
Qed.

Lemma unique_In l k : In k (unique l) -> In k l.
Proof.
  induction l as [|x l IH]; simpl; [tauto|].
  intros [->|H]; [left; reflexivity|].
  apply filter_In in H. right. apply IH. tauto.
Qed.

Lemma unique_repr l :
  (forall c, In c l -> isna c = false) ->
  forall c, In c l -> exists k, In k (unique l) /\ cell_eq k c = true.
Proof.
  induction l as [|x l IH]; intros Hna c Hc; [contradiction|].
  simpl. destruct Hc as [->|Hc].
  - exists c. split; [left; reflexivity|].
    apply cell_eq_refl, Hna. left. reflexivity.
  - destruct (IH (fun c H => Hna c (or_intror H)) c Hc) as (k & Hk & Ekc).
    assert (Hx : isna x = false) by (apply Hna; left; reflexivity).
    destruct (cell_eq x k) eqn:Exk.
    + exists x. split; [left; reflexivity|].
      eapply cell_eq_trans; eassumption.
    + exists k. split; [|assumption]. right. apply filter_In.
      split; [assumption|]. rewrite (cell_same_eq x k Hx), Exk. reflexivity.
Qed.

Lemma count_same k c l : cell_eq k c = true -> count c l = count k l.
Proof.
  intros E. destruct (cell_eq_not_na k c E) as [Hk Hc].
  unfold count. f_equal. apply filter_ext. intros y.
  rewrite (cell_same_eq c y Hc), (cell_same_eq k y Hk).
  apply eq_true_iff_eq. split; intros H.
  - eapply cell_eq_trans; eassumption.
  - rewrite cell_eq_sym in E. eapply cell_eq_trans; eassumption.
Qed.

Lemma max_bound (l : list nat) x :
  In x l -> (x <= fold_right Nat.max 0 l)%nat.
Proof.
  induction l as [|y l IH]; simpl; [contradiction|].
  intros [->|H]; [lia|]. specialize (IH H). lia.
Qed.

Lemma max_attained (l : list nat) :
  l <> [] -> In (fold_right Nat.max 0%nat l) l.
Proof.
  induction l as [|y l IH]; [congruence|]. intros _. simpl.
  destruct l as [|z l].
  - left. simpl. lia.
  - destruct (Nat.max_spec y (fold_right Nat.max 0%nat (z :: l)))
      as [[_ E]|[_ E]]; rewrite E.
    + right. apply IH. discriminate.
    + left. reflexivity.
Qed.

Lemma insert_sorted_In x l y :
  In y (insert_sorted x l) <-> y = x \/ In y l.
Proof.
  induction l as [|z l IH]; simpl.
  - intuition.
  - destruct (cell_le x z); simpl; [intuition|]. rewrite IH. intuition.
Qed.

Lemma sort_In l y : In y (sort l) <-> In y l.
Proof.
  induction l as [|x l IH]; simpl; [tauto|].
  rewrite insert_sorted_In, IH. intuition.
Qed.

Lemma sort_head_least l :
  (forall c, In c l -> isna c = false) ->
  forallb is_str l = true \/ forallb is_num l = true ->
  forall m rest, sort l = m :: rest ->
                 forall y, In y l -> cell_le m y = true.
Proof.
  induction l as [|x l IH]; intros Hna Hkind m rest E y Hy; [contradiction|].
  assert (Hna' : forall c, In c l -> isna c = false)
    by (intros c H; apply Hna; right; assumption).
  assert (Hkind' : forallb is_str l = true \/ forallb is_num l = true).
  { simpl in Hkind. rewrite !andb_true_iff in Hkind. tauto. }
  assert (Hx : isna x = false) by (apply Hna; left; reflexivity).
  simpl in E. destruct (sort l) as [|m' rest'] eqn:Es.
  - assert (l = []).
    { destruct l as [|z l]; [reflexivity|].
      assert (In z (sort (z :: l))) by (apply sort_In; left; reflexivity).
      rewrite Es in H. contradiction. }
    subst l. simpl in E. inversion E; subst.
    destruct Hy as [->|[]].
    apply cell_eq_le, cell_eq_refl. assumption.
  - specialize (IH Hna' Hkind' m' rest' eq_refl).
    assert (Hm' : In m' l) by (apply sort_In; rewrite Es; left; reflexivity).
    simpl in E. destruct (cell_le x m') eqn:Exm; inversion E; subst.
    + destruct Hy as [->|Hy].
      * apply cell_eq_le, cell_eq_refl. assumption.
      * eapply cell_le_trans; [eassumption|]. apply IH. assumption.
    + destruct Hy as [->|Hy]; [|apply IH; assumption].
      destruct (cell_le_total y m Hx (Hna' m Hm')) as [H|H];
        [|congruence|assumption].
      simpl in Hkind. rewrite !andb_true_iff in Hkind.
      destruct Hkind as [[H1 H2]|[H1 H2]]; [left|right];
        (split; [assumption|]);
        rewrite forallb_forall in H2; apply H2; assumption.
Qed.

Lemma forallb_incl {A} (p : A -> bool) (l l' : list A) :
  (forall x, In x l' -> In x l) -> forallb p l = true -> forallb p l' = true.
Proof.
  rewrite !forallb_forall. auto.
Qed.

Lemma mode_spec l :
  present l <> [] ->
  sortable (present l) = true ->
  exists m0 rest,
    mode l = m0 :: rest
    /\ In m0 (present l)
    /\ (forall c, In c (present l) ->
                  (count c (present l) <= count m0 (present l))%nat)
    /\ (forall c, In c (present l) ->
                  count c (present l) = count m0 (present l) ->
                  cell_le m0 c = true).
Proof.
  intros Hne Hsort. unfold mode. fold (present l).
  set (vals := present l) in *.
  set (keys := unique vals).
  set (top := fold_right Nat.max 0%nat (map (fun k => count k vals) keys)).
  set (modes := filter (fun k => (count k vals =? top)%nat) keys).
  assert (Hna : forall c, In c vals -> isna c = false)
    by (intros c; apply present_not_na).
  assert (Hkeys : forall k, In k keys -> In k vals)
    by (intros k; apply unique_In).
  assert (Hmodes : forall k, In k modes <->
                             In k keys /\ count k vals = top).
  { intros k. unfold modes. rewrite filter_In, Nat.eqb_eq. tauto. }
  assert (Hkne : keys <> []).
  { unfold keys. destruct vals; [congruence|discriminate]. }
  assert (Htop : exists k0, In k0 modes).
  { assert (H : In top (map (fun k => count k vals) keys)).
    { apply max_attained. destruct keys; [congruence|discriminate]. }
    apply in_map_iff in H. destruct H as (k0 & E & Hk0).
    exists k0. apply Hmodes. split; assumption. }
  assert (Hbound : forall k, In k keys -> (count k vals <= top)%nat).
  { intros k Hk. apply max_bound.
    apply in_map_iff. exists k. split; [reflexivity|assumption]. }
  assert (Hms : sortable modes = true).
  { unfold sortable in *. apply orb_true_iff in Hsort. apply orb_true_iff.
    destruct Hsort as [H|H]; [left|right];
      (eapply forallb_incl; [|exact H]);
      intros x Hx; apply Hkeys, Hmodes; assumption. }
  rewrite Hms.
  destruct (sort modes) as [|m0 rest] eqn:Es.
  { destruct Htop as (k0 & Hk0). apply sort_In in Hk0.
    rewrite Es in Hk0. contradiction. }
  assert (Hm0 : In m0 modes) by (apply sort_In; rewrite Es; left; reflexivity).
  destruct (proj1 (Hmodes m0) Hm0) as [Hm0k Hm0c].
  assert (Hleast : forall y, In y modes -> cell_le m0 y = true).
  { apply (sort_head_least modes) with (rest := rest); [| |assumption].
    - intros c Hc. apply Hna, Hkeys, Hmodes. assumption.
    - unfold sortable in Hms. apply orb_true_iff in Hms. assumption. }
  exists m0, rest. split; [reflexivity|]. split; [apply Hkeys; assumption|].
  split.
  - intros c Hc. destruct (unique_repr vals Hna c Hc) as (k & Hk & Ekc).
    rewrite (count_same k c vals Ekc), Hm0c. apply Hbound. assumption.
  - intros c Hc Ecount.
    destruct (unique_repr vals Hna c Hc) as (k & Hk & Ekc).
    apply cell_le_trans with (b := k); [|apply cell_eq_le; assumption].
    apply Hleast, Hmodes. split; [assumption|].
    rewrite <- (count_same k c vals Ekc), Ecount. assumption.
Qed.

(** C4 (as the code has it): when the values of the column are all strings
    or all numbers (missing cells apart) and there is at least one,
    [is_same] returns, row by row, whether the cell equals the canonical
    value [m0]: a value of the column with the highest count, and among the
    values with that count the least one in sorted order, wherever its rows
    are. *)
Theorem is_same_compares_with_least_mode :
  forall s : Series,
    present (values s) <> [] ->
    sortable (present (values s)) = true ->
    exists m0,
      is_same s = Ok (map (fun c => cell_eq c m0) (values s))
      /\ In m0 (present (values s))
      /\ (forall c, In c (present (values s)) ->
                    (count c (present (values s))
                     <= count m0 (present (values s)))%nat)
      /\ (forall c, In c (present (values s)) ->
                    count c (present (values s)) = count m0 (present (values s)) ->
                    cell_le m0 c = true).
Proof.
  intros s Hne Hsort.
  destruct (mode_spec (values s) Hne Hsort) as (m0 & rest & Em & H1 & H2 & H3).
  exists m0. unfold is_same. rewrite Em.
  split; [reflexivity|]. split; [assumption|]. split; assumption.
Qed.

Lemma is_same_witness :
  exists m0,
    is_same (series_of "Station" [CInt 6; CInt 5; CInt 6; CInt 5])
      = Ok (map (fun c => cell_eq c m0) [CInt 6; CInt 5; CInt 6; CInt 5])
    /\ In m0 (present [CInt 6; CInt 5; CInt 6; CInt 5])
    /\ (forall c, In c (present [CInt 6; CInt 5; CInt 6; CInt 5]) ->
                  (count c (present [CInt 6; CInt 5; CInt 6; CInt 5])
                   <= count m0 (present [CInt 6; CInt 5; CInt 6; CInt 5]))%nat)
    /\ (forall c, In c (present [CInt 6; CInt 5; CInt 6; CInt 5]) ->
                  count c (present [CInt 6; CInt 5; CInt 6; CInt 5])
                  = count m0 (present [CInt 6; CInt 5; CInt 6; CInt 5]) ->
                  cell_le m0 c = true).
Proof.
  apply (is_same_compares_with_least_mode
           (series_of "Station" [CInt 6; CInt 5; CInt 6; CInt 5])).
  - simpl. discriminate.
  - reflexivity.
Defined.

(** C4, as stated, fails: in the column 6, 5, 6, 5 the values 6 and 5 are
    tied and 6 comes first, at row 0; [is_same] compares with 5, so rows 0
    and 2 fail and rows 1 and 3 pass.  The same holds for strings. *)
Lemma is_same_tie_not_first_row :
  mode [CInt 6; CInt 5; CInt 6; CInt 5] = [CInt 5; CInt 6]
  /\ is_same (series_of "Station" [CInt 6; CInt 5; CInt 6; CInt 5])
     = Ok [false; true; false; true]
  /\ is_same (series_of "Cruise" [CStr "b"; CStr "a"]) = Ok [false; true].
Proof. repeat split. Qed.

(** ** The station-by-station loop *)

Lemma for_each_In {X E} (body : X -> list E * option exn) (l : list X) e :
  In e (fst (for_each body l)) -> exists x, In x l /\ In e (fst (body x)).
Proof.
  induction l as [|x l IH]; simpl; [contradiction|].
  destruct (body x) as [out [ex|]] eqn:Eb; simpl.
  - intros H. exists x. rewrite Eb. auto.
  - destruct (for_each body l) as [out' r]. simpl in *. intros H.
    apply in_app_or in H. destruct H as [H|H].
    + exists x. rewrite Eb. auto.
    + destruct (IH H) as (x' & Hx' & He). exists x'. auto.
Qed.

Lemma insert_by_row_In w l x :
  In x (insert_by_row w l) <-> x = w \/ In x l.
Proof.
  induction l as [|y l IH]; simpl.
  - intuition.
  - destruct (w_row w <? w_row y)%Z; simpl; [intuition|].
    rewrite IH. intuition.
Qed.

Lemma sorted_by_row_In l x : In x (sorted_by_row l) <-> In x l.
Proof.
  induction l as [|y l IH]; simpl; [tauto|].
  rewrite insert_by_row_In, IH. intuition.
Qed.

Lemma mapM_In {A B} (f : A -> result B) (l : list A) ys y :
  mapM f l = Ok ys -> In y ys -> exists x, In x l /\ f x = Ok y.
Proof.
  revert ys. induction l as [|x l IH]; simpl; intros ys E Hy.
  - inversion E; subst. contradiction.
  - destruct (f x) as [b|] eqn:Ef; simpl in E; [|discriminate].
    destruct (mapM f l) as [bs|] eqn:El; simpl in E; [|discriminate].
    inversion E; subst. destruct Hy as [->|Hy].
    + exists x. auto.
    + destruct (IH bs eq_refl Hy) as (x' & Hx' & E'). exists x'. auto.
Qed.

Lemma failing_In msg col idx vals ok w :
  In w (failing msg col idx vals ok) ->
  exists j,
    nth_error idx j = Some (w_row w) /\ nth_error vals j = Some (w_value w)
    /\ w_message w = msg /\ w_column w = Some col.
Proof.
  revert vals ok. induction idx as [|i idx IH]; intros [|v vals] [|b ok];
    simpl; try contradiction.
  intros H.
  assert (Hrest : In w (failing msg col idx vals ok) ->
                  exists j,
                    nth_error (i :: idx) j = Some (w_row w)
                    /\ nth_error (v :: vals) j = Some (w_value w)
                    /\ w_message w = msg /\ w_column w = Some col).
  { intros H'. destruct (IH _ _ H') as (j & Hj). exists (S j). exact Hj. }
  destruct b; [auto|].
  destruct H as [<-|H]; [|auto].
  exists 0%nat. simpl. auto.
Qed.

Lemma select_origin {A} (mask : list bool) :
  forall (l : list A) j a,
    nth_error (select mask l) j = Some a ->
    nth_error l (origin mask j) = Some a
    /\ nth_error mask (origin mask j) = Some true.
Proof.
  induction mask as [|b mask IH]; intros l j a H.
  - destruct j; discriminate H.
  - destruct l as [|x l]; [destruct b, j; discriminate H|].
    destruct b; simpl in H.
    + destruct j as [|j]; simpl in *; [auto|]. apply IH. assumption.
    + simpl. apply IH. assumption.
Qed.

Lemma lookup_In n cols vs : lookup n cols = Some vs -> In (n, vs) cols.
Proof.
  induction cols as [|[n' vs'] cols IH]; simpl; [discriminate|].
  destruct (String.eqb n n') eqn:E.
  - apply String.eqb_eq in E. intros H. inversion H; subst. auto.
  - auto.
Qed.

Lemma lookup_names n cols :
  In n (map fst cols) -> lookup n cols <> None.
Proof.
  induction cols as [|[n' vs'] cols IH]; simpl; [contradiction|].
  destruct (String.eqb n n') eqn:E; [discriminate|].
  apply String.eqb_neq in E. intros [H|H]; [congruence|auto].
Qed.

Lemma lookup_filter_rows df mask n :
  lookup n (df_columns (filter_rows df mask))
  = option_map (select mask) (lookup n (df_columns df)).
Proof.
  unfold filter_rows. simpl.
  induction (df_columns df) as [|[n' vs'] cols IH]; simpl; [reflexivity|].
  destruct (String.eqb n n'); [reflexivity|assumption].
Qed.

Lemma names_filter_rows df mask :
  map fst (df_columns (filter_rows df mask)) = map fst (df_columns df).
Proof.
  unfold filter_rows. simpl. rewrite map_map. reflexivity.
Qed.

Lemma get_columns_spec df ns md :
  get_columns df ns = Ok md ->
  df_index md = df_index df
  /\ map fst (df_columns md) = ns
  /\ (forall n vs, In (n, vs) (df_columns md) ->
                   lookup n (df_columns df) = Some vs).
Proof.
  unfold get_columns.
  destruct (mapM _ ns) as [cols|] eqn:E; simpl; [|discriminate].
  intros H. inversion H; subst; clear H. simpl.
  split; [reflexivity|].
  revert cols E. induction ns as [|n ns IH]; simpl; intros cols E.
  - inversion E; subst. simpl. split; [reflexivity|contradiction].
  - unfold get_column in E at 1.
    destruct (lookup n (df_columns df)) as [vs|] eqn:El; simpl in E;
      [|discriminate].
    destruct (mapM _ ns) as [cols'|] eqn:E'; simpl in E; [|discriminate].
    inversion E; subst; clear E.
    destruct (IH cols' eq_refl) as [IH1 IH2]. simpl. split.
    + rewrite IH1. reflexivity.
    + intros n' vs' [H|H]; [inversion H; subst; assumption|auto].
Qed.

Lemma pair_columns_spec schema df :
  (forall c, In c schema -> lookup (col_name c) (df_columns df) <> None) ->
  exists ps,
    pair_columns schema df = inr ps
    /\ forall p, In p ps ->
         In (snd p) schema
         /\ exists vs,
              lookup (col_name (snd p)) (df_columns df) = Some vs
              /\ fst p = {| name := col_name (snd p); index := df_index df;
                            values := vs |}.
Proof.
  induction schema as [|c schema IH]; intros H; simpl.
  - exists []. split; [reflexivity|contradiction].
  - destruct (lookup (col_name c) (df_columns df)) as [vs|] eqn:El.
    + destruct IH as (ps & -> & Hps); [intros c' Hc'; apply H; right; assumption|].
      eexists. split; [reflexivity|].
      intros p [<-|Hp]; simpl.
      * split; [left; reflexivity|]. exists vs. auto.
      * destruct (Hps p Hp) as [H1 H2]. auto.
    + exfalso. apply (H c); [left; reflexivity|assumption].
Qed.

Lemma schema_validate_In valid_date schema df ws w :
  List.length (df_columns df) = List.length schema ->
  (forall c, In c schema -> lookup (col_name c) (df_columns df) <> None) ->
  schema_validate valid_date schema df = Ok ws ->
  In w ws ->
  exists c v vs ok,
    In c schema /\ In v (validations c)
    /\ lookup (col_name c) (df_columns df) = Some vs
    /\ validate valid_date v
         {| name := col_name c; index := df_index df; values := vs |} = Ok ok
    /\ In w (failing (message v) (col_name c) (df_index df) vs ok).
Proof.
  intros Hlen Hcols. unfold schema_validate.
  rewrite Hlen, Nat.eqb_refl. simpl.
  destruct (pair_columns_spec schema df Hcols) as (ps & -> & Hps).
  destruct (mapM _ ps) as [ess|] eqn:E; simpl; [|discriminate].
  intros H Hw. inversion H; subst; clear H.
  apply sorted_by_row_In, in_concat in Hw. destruct Hw as (es & Hes & Hw).
  destruct (mapM_In _ _ _ _ E Hes) as (p & Hp & Ep).
  destruct (Hps p Hp) as (Hc & vs & El & Efst).
  unfold column_validate in Ep.
  destruct (mapM _ (validations (snd p))) as [ess'|] eqn:E'; simpl in Ep;
    [|discriminate].
  inversion Ep; subst; clear Ep.
  apply in_concat in Hw. destruct Hw as (es' & Hes' & Hw).
  destruct (mapM_In _ _ _ _ E' Hes') as (v & Hv & Ev).
  unfold get_errors in Ev. rewrite Efst in Ev.
  destruct (validate valid_date v _) as [ok|] eqn:Eok; simpl in Ev;
    [|discriminate].
  inversion Ev; subst; clear Ev.
  exists (snd p), v, vs, ok. auto.
Qed.

Lemma metadata_schema_columns c :
  In c metadata_schema ->
  In (col_name c) metadata_columns /\ validations c = [ IsSameValidation ].
Proof.
  unfold metadata_schema, metadata_columns. simpl.
  intros H.
  repeat (destruct H as [<-|H]; [simpl; split; [tauto|reflexivity]|]).
  contradiction.
Qed.

Lemma nth_error_map_true {A} (f : A -> bool) l i :
  nth_error (map f l) i = Some true ->
  exists x, nth_error l i = Some x /\ f x = true.
Proof.
  rewrite nth_error_map. destruct (nth_error l i) as [x|]; simpl;
    [|discriminate].
  intros H. inversion H. exists x. auto.
Qed.

(** C7 (as the code has it): an error printed by the station-by-station
    loop holds a message, a value, a row label and a column name, and no
    group key.  The row label is the label of a row of the sheet; in that
    row the named metadata column holds the reported value, and the columns
    Cruise and Station hold the cruise and the station of the round that
    printed the error. *)
Theorem station_error_names_sheet_row :
  forall valid_date sheet cruise station w,
    In (cruise, station, w) (fst (station_loop valid_date sheet)) ->
    exists i col v_cruise v_station,
      nth_error (df_index sheet) i = Some (w_row w)
      /\ w_column w = Some col
      /\ In col metadata_columns
      /\ cell_at sheet col i = Some (w_value w)
      /\ w_message w = "is not the same as other rows"
      /\ cell_at sheet "Cruise" i = Some v_cruise
      /\ cell_eq v_cruise cruise = true
      /\ cell_at sheet "Station" i = Some v_station
      /\ cell_eq v_station station = true.
Proof.
  intros vd sheet cruise station w. unfold station_loop.
  destruct (get_columns sheet metadata_columns) as [md|] eqn:Emd;
    [|contradiction].
  destruct (get_columns_spec _ _ _ Emd) as (Hidx & Hnames & Hcols).
  unfold get_column at 1.
  destruct (lookup "Cruise" (df_columns md)) as [vc|] eqn:Evc; [|contradiction].
  intros H. apply for_each_In in H. destruct H as (cruise' & _ & H).
  cbv beta in H. simpl values in H.
  set (mask1 := series_eq _ cruise') in H.
  unfold get_column in H. rewrite lookup_filter_rows in H.
  destruct (lookup "Station" (df_columns md)) as [vst|] eqn:Evst;
    [|contradiction].
  simpl option_map in H. cbv iota in H.
  apply for_each_In in H. destruct H as (station' & _ & H).
  cbv beta in H.
  set (mask2 := series_eq _ station') in H.
  set (sd := filter_rows (filter_rows md mask1) mask2) in H.
  destruct (schema_validate vd metadata_schema sd) as [merrors|] eqn:Ev;
    [|contradiction].
  simpl in H. apply in_map_iff in H. destruct H as (w' & E & Hw).
  inversion E; subst cruise' station' w'; clear E.
  assert (Hsd : map fst (df_columns sd) = metadata_columns).
  { unfold sd. rewrite !names_filter_rows. assumption. }
  destruct (schema_validate_In vd metadata_schema sd merrors w)
    as (c & v & vs & ok & Hc & Hv & El & _ & Hf); try assumption.
  { rewrite <- (length_map fst), Hsd. reflexivity. }
  { intros c Hc. apply lookup_names. rewrite Hsd.
    apply metadata_schema_columns. assumption. }
  destruct (metadata_schema_columns c Hc) as [Hcol Hvals].
  rewrite Hvals in Hv. destruct Hv as [<-|[]].
  apply failing_In in Hf. destruct Hf as (j & Hrow & Hval & Hmsg & Hcolumn).
  unfold sd in El, Hrow. rewrite !lookup_filter_rows in El.
  destruct (lookup (col_name c) (df_columns md)) as [v0|] eqn:Ev0;
    [|discriminate].
  simpl in El. inversion El; subst vs; clear El.
  simpl in Hrow.
  apply select_origin in Hrow. destruct Hrow as [Hrow Hm2].
  apply select_origin in Hrow. destruct Hrow as [Hrow Hm1].
  apply select_origin in Hval. destruct Hval as [Hval _].
  apply select_origin in Hval. destruct Hval as [Hval _].
  unfold mask2, series_eq in Hm2. simpl in Hm2.
  apply nth_error_map_true in Hm2. destruct Hm2 as (y & Hy & Ey).
  apply select_origin in Hy. destruct Hy as [Hy _].
  unfold mask1, series_eq in Hm1. simpl in Hm1.
  apply nth_error_map_true in Hm1. destruct Hm1 as (x & Hx & Ex).
  exists (origin mask1 (origin mask2 j)), (col_name c), x, y.
  unfold cell_at.
  rewrite (Hcols _ _ (lookup_In _ _ _ Ev0)),
          (Hcols _ _ (lookup_In _ _ _ Evc)),
          (Hcols _ _ (lookup_In _ _ _ Evst)).
  rewrite <- Hidx.
  repeat split; assumption.
Qed.

Lemma station_error_witness :
  exists i col v_cruise v_station,
    nth_error (df_index (station_sheet "AR1" 1 [1; 1; 2]%Z)) i
      = Some (w_row cast_error)
    /\ w_column cast_error = Some col
    /\ In col metadata_columns
    /\ cell_at (station_sheet "AR1" 1 [1; 1; 2]%Z) col i
       = Some (w_value cast_error)
    /\ w_message cast_error = "is not the same as other rows"
    /\ cell_at (station_sheet "AR1" 1 [1; 1; 2]%Z) "Cruise" i = Some v_cruise
    /\ cell_eq v_cruise (CStr "AR1") = true
    /\ cell_at (station_sheet "AR1" 1 [1; 1; 2]%Z) "Station" i = Some v_station
    /\ cell_eq v_station (CInt 1) = true.
Proof.
  apply (station_error_names_sheet_row any_date
           (station_sheet "AR1" 1 [1; 1; 2]%Z) (CStr "AR1") (CInt 1) cast_error).
  vm_compute. left. reflexivity.
Defined.

(** C7, as stated, fails: a sheet of cruise AR1, station 1 and a sheet of
    cruise AR2, station 7 make the loop print the same error, the same text,
    so nothing in a printed error tells the group it came from. *)
Lemma station_error_has_no_group_key :
  station_loop any_date (station_sheet "AR1" 1 [1; 1; 2]%Z)
    = ([ (CStr "AR1", CInt 1, cast_error) ], None)
  /\ station_loop any_date (station_sheet "AR2" 7 [1; 1; 2]%Z)
     = ([ (CStr "AR2", CInt 7, cast_error) ], None)
  /\ station_loop_printed any_date (station_sheet "AR1" 1 [1; 1; 2]%Z)
     = station_loop_printed any_date (station_sheet "AR2" 7 [1; 1; 2]%Z)
  /\ ~ (exists key_of : ValidationWarning -> cell * cell,
          forall sheet cruise station w,
            In (cruise, station, w) (fst (station_loop any_date sheet)) ->
            key_of w = (cruise, station)).
Proof.
  assert (E1 : station_loop any_date (station_sheet "AR1" 1 [1; 1; 2]%Z)
               = ([ (CStr "AR1", CInt 1, cast_error) ], None))
    by (vm_compute; reflexivity).
  assert (E2 : station_loop any_date (station_sheet "AR2" 7 [1; 1; 2]%Z)
               = ([ (CStr "AR2", CInt 7, cast_error) ], None))
    by (vm_compute; reflexivity).
  split; [exact E1|]. split; [exact E2|]. split.
  - unfold station_loop_printed. rewrite E1, E2. reflexivity.
  - intros (key_of & H).
    pose proof (H (station_sheet "AR1" 1 [1; 1; 2]%Z) (CStr "AR1") (CInt 1)
                  cast_error) as H1.
    pose proof (H (station_sheet "AR2" 7 [1; 1; 2]%Z) (CStr "AR2") (CInt 7)
                  cast_error) as H2.
    rewrite E1 in H1. rewrite E2 in H2.
    specialize (H1 (or_introl eq_refl)). specialize (H2 (or_introl eq_refl)).
    rewrite H1 in H2. discriminate H2.
Qed.

(* ================================================================== *)
(** * Further properties *)
(* ================================================================== *)

(** ** The header loop *)

Lemma header_loop_In_iff (column_headers columns : list string) :
  forall k r,
    In r (header_loop column_headers k columns) <->
    exists i column,
      nth_error columns i = Some column /\
      In r (check_header column_headers (k + i) column).
Proof.
  induction columns as [|c rest IH]; intros k r; simpl.
  - split; [contradiction|]. intros (i & column & H & _).
    destruct i; discriminate H.
  - rewrite in_app_iff, IH. split.
    + intros [H|(i & column & Hn & Hr)].
      * exists 0%nat, c. rewrite Nat.add_0_r. auto.
      * exists (S i), column. rewrite Nat.add_succ_r. auto.
    + intros ([|i] & column & Hn & Hr).
      * left. simpl in Hn. inversion Hn; subst.
        rewrite Nat.add_0_r in Hr. assumption.
      * right. exists i, column. rewrite Nat.add_succ_r in Hr. auto.
Qed.

Lemma tuple_index_some x l i :
  tuple_index x l = Some i <->
  nth_error l i = Some x /\ (forall j, (j < i)%nat -> nth_error l j <> Some x).
Proof.
  revert i. induction l as [|y l IH]; intros i; simpl.
  - split; [discriminate|]. intros [H _]. destruct i; discriminate H.
  - destruct (String.eqb y x) eqn:E.
    + apply String.eqb_eq in E. subst y. split.
      * intros H. inversion H; subst. split; [reflexivity|]. intros j Hj. lia.
      * intros [H1 H2]. destruct i as [|i]; [reflexivity|].
        exfalso. apply (H2 0%nat); [lia|reflexivity].
    + apply String.eqb_neq in E. split.
      * destruct (tuple_index x l) as [i'|] eqn:Ei; simpl; [|discriminate].
        intros H. inversion H; subst.
        destruct (proj1 (IH i') eq_refl) as [H1 H2]. split; [assumption|].
        intros [|j] Hj; simpl; [congruence|]. apply H2. lia.
      * intros [H1 H2]. destruct i as [|i]; [simpl in H1; congruence|].
        simpl in H1.
        assert (Hi : tuple_index x l = Some i).
        { apply IH. split; [assumption|]. intros j Hj.
          apply (H2 (S j)). lia. }
        rewrite Hi. reflexivity.
Qed.

Lemma tuple_index_none x l : tuple_index x l = None <-> ~ In x l.
Proof.
  induction l as [|y l IH]; simpl.
  - tauto.
  - destruct (String.eqb y x) eqn:E.
    + apply String.eqb_eq in E. split; [discriminate|]. intros H.
      exfalso. apply H. auto.
    + apply String.eqb_neq in E.
      destruct (tuple_index x l) as [i|]; simpl.
      * split; [discriminate|]. intros H. exfalso.
        destruct IH as [_ IH].
        assert (Some i = None) by (apply IH; tauto). discriminate.
      * split; [|reflexivity]. intros _ [H|H]; [congruence|].
        apply (proj1 IH); [reflexivity|assumption].
Qed.

Lemma skipn_nth_cons {A} (l : list A) k x :
  nth_error l k = Some x -> skipn k l = x :: skipn (S k) l.
Proof.
  revert k. induction l as [|y l IH]; intros [|k] H; try discriminate.
  - simpl in H. inversion H. reflexivity.
  - simpl in H. apply IH in H. simpl. exact H.
Qed.

Lemma header_loop_silent column_headers columns :
  forall k,
    header_loop column_headers k columns = [] ->
    exists missing, skipn k column_headers = columns ++ missing.
Proof.
  induction columns as [|c rest IH]; intros k H.
  - exists (skipn k column_headers). reflexivity.
  - simpl in H. apply app_eq_nil in H. destruct H as [Hc Hrest].
    unfold check_header in Hc.
    destruct (nth_error column_headers k) as [e|] eqn:En; [|discriminate].
    destruct (String.eqb c e) eqn:Ec; simpl in Hc.
    + apply String.eqb_eq in Ec. subst e.
      destruct (IH _ Hrest) as (missing & Hm). exists missing.
      rewrite (skipn_nth_cons _ _ _ En), Hm. reflexivity.
    + destruct (tuple_index c column_headers); discriminate.
Qed.

(** X1: the header loop prints nothing exactly when the headers of the
    sheet are the first headers of the expected list, in the same order
    (the expected list may go on). *)
Theorem check_headers_silent_iff_prefix :
  forall column_headers columns : list string,
    check_headers column_headers columns = [] <->
    exists missing, column_headers = columns ++ missing.
Proof.
  intros column_headers columns. split.
  - intros H. apply (header_loop_silent column_headers columns 0). exact H.
  - intros (missing & ->).
    apply (header_loop_prefix columns missing 0 []). reflexivity.
Qed.

Lemma check_header_length column_headers k column :
  (List.length (check_header column_headers k column) <= 1)%nat.
Proof.
  unfold check_header. destruct (nth_error column_headers k); [|simpl; lia].
  destruct (negb (String.eqb column s)); [|simpl; lia].
  destruct (tuple_index column column_headers); simpl; lia.
Qed.

Lemma header_loop_needs_deleted column_headers columns :
  forall k,
    filter is_needs_deleted (header_loop column_headers k columns)
    = map NeedsDeleted (skipn (List.length column_headers - k) columns)
    /\ (List.length (header_loop column_headers k columns)
        <= List.length columns)%nat.
Proof.
  induction columns as [|c rest IH]; intros k.
  - simpl. rewrite skipn_nil. split; [reflexivity|lia].
  - destruct (IH (S k)) as [IH1 IH2]. simpl header_loop.
    rewrite filter_app, length_app, IH1. split.
    + unfold check_header.
      destruct (nth_error column_headers k) as [e|] eqn:En.
      * assert (Hk : (k < List.length column_headers)%nat)
          by (apply nth_error_Some; congruence).
        replace (List.length column_headers - k)%nat
          with (S (List.length column_headers - S k)) by lia.
        simpl skipn.
        destruct (negb (String.eqb c e)); [|reflexivity].
        destruct (tuple_index c column_headers); reflexivity.
      * apply nth_error_None in En.
        replace (List.length column_headers - k)%nat with 0%nat by lia.
        replace (List.length column_headers - S k)%nat with 0%nat by lia.
        reflexivity.
    + pose proof (check_header_length column_headers k c). simpl. lia.
Qed.

(** X2: the columns of the sheet that stand past the end of the expected
    headers are reported as to be deleted, each once and in order, whatever
    their names, and no other column is; the loop prints at most one line
    for each column of the sheet. *)
Theorem check_headers_deletes_overflow :
  forall column_headers columns : list string,
    filter is_needs_deleted (check_headers column_headers columns)
    = map NeedsDeleted (skipn (List.length column_headers) columns)
    /\ (List.length (check_headers column_headers columns)
        <= List.length columns)%nat.
Proof.
  intros column_headers columns.
  destruct (header_loop_needs_deleted column_headers columns 0) as [H1 H2].
  rewrite Nat.sub_0_r in H1. split; assumption.
Qed.

(** X3: the loop reports that [column] should be moved from [k] to [ind]
    exactly when [column] stands at position [k] of the sheet, the expected
    header at [k] is another one, and [ind] is the first position of
    [column] in the expected headers; it reports [column] as not accepted
    (should be [e]) exactly when [column] stands at a position of the sheet
    where the expected header is [e] and [column] is no expected header. *)
Theorem check_headers_report_meaning :
  forall (column_headers columns : list string),
    (forall column k ind,
        In (ShouldBeMoved column k ind) (check_headers column_headers columns)
        <-> nth_error columns k = Some column
            /\ (exists e, nth_error column_headers k = Some e /\ e <> column)
            /\ nth_error column_headers ind = Some column
            /\ (forall j, (j < ind)%nat ->
                          nth_error column_headers j <> Some column))
    /\ (forall column e,
          In (NotAccepted column e) (check_headers column_headers columns)
          <-> exists k,
                nth_error columns k = Some column
                /\ nth_error column_headers k = Some e
                /\ ~ In column column_headers).
Proof.
  intros column_headers columns. unfold check_headers. split.
  - intros column k ind. rewrite header_loop_In_iff. simpl. split.
    + intros (i & c & Hn & Hr). unfold check_header in Hr.
      destruct (nth_error column_headers i) as [e|] eqn:En;
        [|destruct Hr as [Hr|[]]; discriminate Hr].
      destruct (String.eqb c e) eqn:Ec; simpl in Hr; [contradiction|].
      apply String.eqb_neq in Ec.
      destruct (tuple_index c column_headers) as [ind'|] eqn:Ei;
        (destruct Hr as [Hr|[]]); inversion Hr; subst.
      apply tuple_index_some in Ei. destruct Ei as [H1 H2].
      split; [assumption|]. split; [|split; assumption].
      exists e. split; [assumption|congruence].
    + intros (Hn & (e & He & Hne) & Hi & Hfirst).
      exists k, column. split; [assumption|]. unfold check_header.
      rewrite He.
      assert (Ec : String.eqb column e = false)
        by (apply String.eqb_neq; congruence).
      rewrite Ec. simpl.
      rewrite (proj2 (tuple_index_some column column_headers ind)
                 (conj Hi Hfirst)).
      left. reflexivity.
  - intros column e. rewrite header_loop_In_iff. simpl. split.
    + intros (i & c & Hn & Hr). unfold check_header in Hr.
      destruct (nth_error column_headers i) as [e'|] eqn:En;
        [|destruct Hr as [Hr|[]]; discriminate Hr].
      destruct (String.eqb c e') eqn:Ec; simpl in Hr; [contradiction|].
      destruct (tuple_index c column_headers) as [ind'|] eqn:Ei;
        (destruct Hr as [Hr|[]]); inversion Hr; subst.
      exists i. split; [assumption|]. split; [assumption|].
      apply tuple_index_none. assumption.
    + intros (k & Hn & He & Hnot).
      exists k, column. split; [assumption|]. unfold check_header.
      rewrite He.
      assert (Ec : String.eqb column e = false).
      { apply String.eqb_neq. intros ->. apply Hnot.
        eapply nth_error_In. eassumption. }
      rewrite Ec. simpl.
      rewrite (proj2 (tuple_index_none column column_headers) Hnot).
      left. reflexivity.
Qed.

(** ** The custom validators *)


Lemma int_of_chars_sign l :
  int_of_chars l
  = let (neg, l') := skip_sign (strip l) in
    option_map (fun n => if neg then (- Z.of_N n)%Z else Z.of_N n)
      (int_digits 0 true l').
Proof.
  unfold int_of_chars, skip_sign. destruct (strip l) as [|c t]; [reflexivity|].
  destruct c as [[] [] [] [] [] [] [] []]; reflexivity.
Qed.

Lemma int_digits_shape l :
  forall acc pu n,
    int_digits acc pu l = Some n ->
    forallb is_digit (filter (fun c => negb (Ascii.eqb c "_")) l) = true
    /\ (pu = true ->
        exists d rest, l = d :: rest /\ is_digit d = true).
Proof.
  induction l as [|c l IH]; intros acc pu n H; simpl in H.
  - destruct pu; [discriminate|]. split; [reflexivity|discriminate].
  - destruct (is_digit c) eqn:Ed.
    + destruct (IH _ _ _ H) as [IH1 _]. split.
      * simpl. destruct (Ascii.eqb c "_") eqn:Eu; simpl; [assumption|].
        rewrite Ed. assumption.
      * intros _. exists c, l. auto.
    + destruct (Ascii.eqb c "_") eqn:Eu; simpl in H; [|discriminate].
      destruct pu; simpl in H; [discriminate|].
      destruct (IH _ _ _ H) as [IH1 _]. split; [|discriminate].
      simpl. rewrite Eu. simpl. assumption.
Qed.

Lemma span_digits_all l :
  forall acc cnt,
    forallb is_digit l = true ->
    exists a, span_digits acc cnt l = (a, (cnt + List.length l)%nat, []).
Proof.
  induction l as [|c l IH]; intros acc cnt H.
  - exists acc. simpl. rewrite Nat.add_0_r. reflexivity.
  - simpl in H. apply andb_true_iff in H. destruct H as [Hc Hl].
    cbn [span_digits]. rewrite Hc.
    destruct (IH (10 * acc + digit_val c)%N (S cnt) Hl) as (a & E).
    exists a. rewrite E. simpl List.length. f_equal. f_equal. lia.
Qed.

Lemma lower_digit c : is_digit c = true -> lower c = c.
Proof.
  unfold is_digit, lower. rewrite andb_true_iff, !Nat.leb_le. intros [H1 H2].
  destruct (65 <=? nat_of_ascii c)%nat eqn:E; [|reflexivity].
  apply Nat.leb_le in E. lia.
Qed.

Lemma map_lower_digits l : forallb is_digit l = true -> map lower l = l.
Proof.
  induction l as [|c l IH]; simpl; [reflexivity|].
  rewrite andb_true_iff. intros [Hc Hl].
  rewrite (lower_digit c Hc), (IH Hl). reflexivity.
Qed.

Lemma scan_numeral_digits l :
  forallb is_digit l = true -> l <> [] -> scan_numeral l <> None.
Proof.
  intros Hd Hne. unfold scan_numeral.
  destruct (span_digits_all l 0%N 0%nat Hd) as (a & E). rewrite E. simpl.
  destruct l as [|c l]; [congruence|]. simpl. discriminate.
Qed.

Lemma is_digit_not_sign d :
  is_digit d = true ->
  Ascii.eqb d "_" = false /\ skip_sign [d] = (false, [d])
  /\ forall t, skip_sign (d :: t) = (false, d :: t).
Proof.
  destruct d as [[] [] [] [] [] [] [] []]; vm_compute; intros H;
    try discriminate H; repeat split.
Qed.

Lemma int_literal_is_decimal_literal l z :
  int_of_chars l = Some z -> decimal_literal l = true.
Proof.
  rewrite int_of_chars_sign. unfold decimal_literal.
  destruct (skip_sign (strip l)) as [neg l'] eqn:Es.
  destruct (int_digits 0 true l') as [n|] eqn:Ei; simpl; [|discriminate].
  intros _.
  destruct (int_digits_shape l' _ _ _ Ei) as [Hd Hfirst].
  destruct (Hfirst eq_refl) as (d & rest & -> & Hdig).
  destruct (is_digit_not_sign d Hdig) as (Hus & _ & Hsk).
  set (keep := fun c => negb (Ascii.eqb c "_")) in *.
  assert (Hfilter : snd (skip_sign (filter keep (strip l)))
                    = filter keep (d :: rest)).
  { unfold skip_sign in Es. destruct (strip l) as [|c t]; [inversion Es|].
    destruct c as [[] [] [] [] [] [] [] []]; inversion Es; subst;
      first [ reflexivity | vm_compute in Hdig; discriminate Hdig ]. }
  rewrite Hfilter, (map_lower_digits _ Hd).
  destruct (scan_numeral (filter keep (d :: rest))) eqn:Esc; [reflexivity|].
  exfalso. apply (scan_numeral_digits (filter keep (d :: rest))); auto.
  simpl. unfold keep at 1. rewrite Hus. discriminate.
Qed.

(** X5: every cell that passes [check_int] passes [check_decimal]: what
    [int] reads as an integer (sign, digits, single underscores, white space
    around) [Decimal] reads too, and every number passes [check_decimal]. *)
Theorem check_int_implies_check_decimal :
  forall c, check_int c = Ok true -> check_decimal c = Ok true.
Proof.
  intros [|s|n]; unfold check_int, check_decimal; simpl.
  - discriminate.
  - destruct (int_of_chars (chars s)) as [z|] eqn:E; simpl; [|discriminate].
    intros _. rewrite (int_literal_is_decimal_literal _ _ E). reflexivity.
  - intros _. reflexivity.
Qed.

Lemma check_int_implies_check_decimal_witness :
  check_decimal (CStr " -1_000 ") = Ok true.
Proof.
  apply (check_int_implies_check_decimal (CStr " -1_000 ")). reflexivity.
Defined.

Lemma int_digits_chars l :
  forall acc pu n,
    int_digits acc pu l = Some n ->
    forall c, In c l -> is_digit c = true \/ c = "_"%char.
Proof.
  induction l as [|x l IH]; intros acc pu n H c Hc; [contradiction|].
  simpl in H. destruct (is_digit x) eqn:Ed.
  - destruct Hc as [<-|Hc]; [auto|]. eapply IH; eassumption.
  - destruct (Ascii.eqb x "_") eqn:Eu; simpl in H; [|discriminate].
    destruct pu; simpl in H; [discriminate|].
    apply Ascii.eqb_eq in Eu.
    destruct Hc as [<-|Hc]; [auto|]. eapply IH; eassumption.
Qed.

Lemma lstrip_In l c : In c l -> is_space c = false -> In c (lstrip l).
Proof.
  induction l as [|x l IH]; simpl; [tauto|].
  intros [->|H] Hc.
  - rewrite Hc. left. reflexivity.
  - destruct (is_space x); [auto|]. right. assumption.
Qed.

Lemma strip_In l c : In c l -> is_space c = false -> In c (strip l).
Proof.
  intros H Hc. unfold strip.
  apply -> in_rev. apply lstrip_In; [|assumption].
  apply -> in_rev. apply lstrip_In; assumption.
Qed.

Lemma skip_sign_In t c :
  In c t -> c <> "-"%char -> c <> "+"%char -> In c (snd (skip_sign t)).
Proof.
  destruct t as [|x t]; [contradiction|].
  intros H Hm Hp. unfold skip_sign.
  destruct x as [[] [] [] [] [] [] [] []]; simpl; try assumption;
    (destruct H as [<-|H]; [congruence|assumption]).
Qed.

(** X6: a string that holds a character other than a digit, an underscore,
    a sign or white space fails [check_int]; so a numeral with a decimal
    point or an exponent, such as "3.0" or "1e5", is no integer when it
    comes as a string. *)
Theorem check_int_rejects_other_characters :
  forall s ch,
    In ch (chars s) ->
    is_digit ch = false -> is_space ch = false ->
    ch <> "_"%char -> ch <> "-"%char -> ch <> "+"%char ->
    check_int (CStr s) = Ok false.
Proof.
  intros s ch Hin Hd Hs Hu Hm Hp. unfold check_int. simpl.
  rewrite int_of_chars_sign.
  destruct (skip_sign (strip (chars s))) as [neg l'] eqn:Es.
  destruct (int_digits 0 true l') as [n|] eqn:Ei; [|reflexivity].
  exfalso.
  assert (Hl' : In ch l').
  { change l' with (snd (neg, l')). rewrite <- Es.
    apply skip_sign_In; [|assumption|assumption].
    apply strip_In; assumption. }
  destruct (int_digits_chars l' _ _ _ Ei ch Hl') as [H|H]; congruence.
Qed.

Lemma check_int_rejects_witness : check_int (CStr "1e5") = Ok false.
Proof.
  apply (check_int_rejects_other_characters "1e5" "e"%char);
    [right; left; reflexivity|reflexivity|reflexivity
    |discriminate|discriminate|discriminate].
Defined.

(** ** The mode validator *)

Lemma mode_members l m : In m (mode l) -> In m (present l).
Proof.
  unfold mode. fold (present l).
  set (vals := present l).
  set (modes := filter _ (unique vals)).
  assert (H : forall k, In k modes -> In k vals).
  { intros k Hk. apply filter_In in Hk. apply unique_In. tauto. }
  destruct (sortable modes); [rewrite sort_In|]; apply H.
Qed.

Lemma mode_nonempty l : present l <> [] -> mode l <> [].
Proof.
  intros Hne. unfold mode. fold (present l).
  set (vals := present l) in *.
  set (keys := unique vals).
  set (top := fold_right Nat.max 0%nat (map (fun k => count k vals) keys)).
  set (modes := filter (fun k => (count k vals =? top)%nat) keys).
  assert (Htop : exists k0, In k0 modes).
  { assert (H : In top (map (fun k => count k vals) keys)).
    { apply max_attained. unfold keys.
      destruct vals; [congruence|discriminate]. }
    apply in_map_iff in H. destruct H as (k0 & E & Hk0).
    exists k0. apply filter_In. split; [assumption|].
    apply Nat.eqb_eq. assumption. }
  destruct Htop as (k0 & Hk0).
  destruct (sortable modes).
  - intros E. apply sort_In in Hk0. rewrite E in Hk0. contradiction.
  - intros E. rewrite E in Hk0. contradiction.
Qed.

Lemma present_nil_mode l : present l = [] -> mode l = [].
Proof.
  intros H. unfold mode. fold (present l). rewrite H. reflexivity.
Qed.

(** X7: [is_same] raises exactly when the column holds no value (it is
    empty, or all its cells are None or NaN), and then it raises KeyError;
    otherwise it returns one verdict for each row. *)
Theorem is_same_raises_iff_no_value :
  forall s : Series,
    (present (values s) = [] <-> is_same s = Raise KeyError)
    /\ (forall e, is_same s = Raise e -> e = KeyError)
    /\ (forall bs, is_same s = Ok bs ->
                   List.length bs = List.length (values s)).
Proof.
  intros s. unfold is_same.
  destruct (mode (values s)) as [|m0 rest] eqn:Em.
  - split; [|split].
    + split; [reflexivity|]. intros _.
      destruct (present (values s)) as [|c l] eqn:Ep; [reflexivity|].
      exfalso. apply (mode_nonempty (values s)); [rewrite Ep; discriminate|].
      assumption.
    + intros e H. inversion H. reflexivity.
    + discriminate.
  - split; [|split].
    + split; [|discriminate]. intros Hp.
      rewrite (present_nil_mode _ Hp) in Em. discriminate.
    + discriminate.
    + intros bs H. inversion H. unfold series_eq. apply length_map.
Qed.

(** X8: on a column with at least one row, [is_same] passes every row
    exactly when any two cells of the column are equal (so none is
    missing): one missing cell, or one cell that differs, and some row
    fails. *)
Theorem is_same_all_pass_iff_constant :
  forall s : Series,
    values s <> [] ->
    (is_same s = Ok (map (fun _ => true) (values s)) <->
     forall c d, In c (values s) -> In d (values s) -> cell_eq c d = true).
Proof.
  intros s Hne. unfold is_same. split.
  - destruct (mode (values s)) as [|m0 rest]; [discriminate|].
    intros H. inversion H as [E]. unfold series_eq in E.
    assert (Hm : forall c, In c (values s) -> cell_eq c m0 = true).
    { intros c Hc. apply In_nth_error in Hc. destruct Hc as (i & Hi).
      assert (Hn : nth_error (map (fun c => cell_eq c m0) (values s)) i
                   = Some (cell_eq c m0))
        by (rewrite nth_error_map, Hi; reflexivity).
      rewrite E, nth_error_map, Hi in Hn. inversion Hn. reflexivity. }
    intros c d Hc Hd. apply cell_eq_trans with (b := m0); [auto|].
    rewrite cell_eq_sym. auto.
  - intros Hall.
    assert (Hp : present (values s) = values s).
    { unfold present. apply forallb_filter_id. apply forallb_forall.
      intros c Hc. apply negb_true_iff.
      apply (cell_eq_not_na c c). apply Hall; assumption. }
    destruct (mode (values s)) as [|m0 rest] eqn:Em.
    + exfalso. apply (mode_nonempty (values s)); [rewrite Hp|]; assumption.
    + assert (Hm0 : In m0 (values s)).
      { rewrite <- Hp. apply mode_members. rewrite Em. left. reflexivity. }
      unfold series_eq. f_equal. apply map_ext_in.
      intros c Hc. apply Hall; assumption.
Qed.

Lemma is_same_all_pass_witness :
  is_same (series_of "Cast" [CInt 3; CFloat (FFin false 30 (-1))])
    = Ok (map (fun _ => true) [CInt 3; CFloat (FFin false 30 (-1))])
  <-> forall c d,
        In c [CInt 3; CFloat (FFin false 30 (-1))] ->
        In d [CInt 3; CFloat (FFin false 30 (-1))] -> cell_eq c d = true.
Proof.
  apply (is_same_all_pass_iff_constant
           (series_of "Cast" [CInt 3; CFloat (FFin false 30 (-1))])).
  simpl. discriminate.
Defined.

(** ** The metadata check *)

Lemma mapM_raise {A B} (f : A -> result B) (l : list A) e :
  (forall x, In x l -> (exists y, f x = Ok y) \/ f x = Raise e) ->
  (exists x, In x l /\ f x = Raise e) ->
  mapM f l = Raise e.
Proof.
  induction l as [|a l IH]; intros Hall (x & Hx & Ex); [contradiction|].
  simpl. destruct (Hall a (or_introl eq_refl)) as [(y & Ey)|Ey];
    rewrite Ey; simpl; [|reflexivity].
  rewrite IH; [reflexivity| |].
  - intros x' Hx'. apply Hall. right. assumption.
  - destruct Hx as [->|Hx]; [congruence|]. exists x. auto.
Qed.

Lemma mapM_all_ok {A B} (f : A -> result B) (l : list A) :
  (forall x, In x l -> exists y, f x = Ok y) -> exists ys, mapM f l = Ok ys.
Proof.
  induction l as [|a l IH]; intros Hall; simpl.
  - exists []. reflexivity.
  - destruct (Hall a (or_introl eq_refl)) as (y & Ey). rewrite Ey. simpl.
    destruct IH as (ys & Eys); [intros x Hx; apply Hall; right; assumption|].
    rewrite Eys. simpl. eauto.
Qed.

Lemma metadata_columns_nodup : NoDup metadata_columns.
Proof.
  unfold metadata_columns.
  repeat (apply NoDup_cons; [simpl; intuition discriminate|]).
  apply NoDup_nil.
Qed.

Lemma lookup_of_In n vs cols :
  NoDup (map fst cols) -> In (n, vs) cols -> lookup n cols = Some vs.
Proof.
  induction cols as [|[n' vs'] cols IH]; simpl; [contradiction|].
  intros Hnd [H|H].
  - inversion H; subst. rewrite String.eqb_refl. reflexivity.
  - inversion Hnd as [|? ? Hnot Hnd']; subst.
    destruct (String.eqb n n') eqn:E; [|auto].
    apply String.eqb_eq in E. subst n'. exfalso. apply Hnot.
    apply in_map_iff. exists (n, vs). auto.
Qed.

Lemma pair_columns_full schema df :
  (forall c, In c schema -> lookup (col_name c) (df_columns df) <> None) ->
  exists ps,
    pair_columns schema df = inr ps
    /\ map snd ps = schema
    /\ forall p, In p ps ->
         exists vs,
           lookup (col_name (snd p)) (df_columns df) = Some vs
           /\ fst p = {| name := col_name (snd p); index := df_index df;
                         values := vs |}.
Proof.
  induction schema as [|c schema IH]; intros H; simpl.
  - exists []. repeat split. contradiction.
  - destruct (lookup (col_name c) (df_columns df)) as [vs|] eqn:El.
    + destruct IH as (ps & -> & Hmap & Hps);
        [intros c' Hc'; apply H; right; assumption|].
      eexists. split; [reflexivity|]. split; [simpl; rewrite Hmap; reflexivity|].
      intros p [<-|Hp]; simpl; [eauto|auto].
    + exfalso. apply (H c); [left; reflexivity|assumption].
Qed.

Lemma column_validate_is_same valid_date c s :
  validations c = [ IsSameValidation ] ->
  column_validate valid_date c s
  = match is_same s with
    | Ok ok =>
        Ok (failing "is not the same as other rows" (name s) (index s)
              (values s) ok ++ [])
    | Raise e => Raise e
    end.
Proof.
  intros H. unfold column_validate. rewrite H. cbn [mapM].
  unfold get_errors.
  change (validate valid_date IsSameValidation s) with (is_same s).
  destruct (is_same s); reflexivity.
Qed.

Lemma is_same_cases s :
  (present (values s) = [] -> is_same s = Raise KeyError)
  /\ (present (values s) <> [] -> exists bs, is_same s = Ok bs).
Proof.
  unfold is_same. split.
  - intros H. rewrite (present_nil_mode _ H). reflexivity.
  - intros H. destruct (mode (values s)) as [|m0 rest] eqn:Em; [|eauto].
    exfalso. apply (mode_nonempty (values s)); assumption.
Qed.

Lemma metadata_validate_cases valid_date df :
  map fst (df_columns df) = metadata_columns ->
  ((exists n vs, In (n, vs) (df_columns df) /\ present vs = []) ->
   schema_validate valid_date metadata_schema df = Raise KeyError)
  /\ ((forall n vs, In (n, vs) (df_columns df) -> present vs <> []) ->
      exists ws, schema_validate valid_date metadata_schema df = Ok ws).
Proof.
  intros Hnames.
  assert (Hlen : List.length (df_columns df) = List.length metadata_schema)
    by (rewrite <- (length_map fst), Hnames; reflexivity).
  assert (Hcols : forall c, In c metadata_schema ->
                            lookup (col_name c) (df_columns df) <> None).
  { intros c Hc. apply lookup_names. rewrite Hnames.
    apply metadata_schema_columns. assumption. }
  destruct (pair_columns_full metadata_schema df Hcols) as (ps & Eps & Hmap & Hps).
  unfold schema_validate. rewrite Hlen, Nat.eqb_refl, Eps. simpl negb. cbv iota.
  assert (Hp : forall p, In p ps ->
                 exists vs,
                   In (col_name (snd p), vs) (df_columns df)
                   /\ values (fst p) = vs
                   /\ column_validate valid_date (snd p) (fst p)
                      = match is_same (fst p) with
                        | Ok ok =>
                            Ok (failing "is not the same as other rows"
                                  (name (fst p)) (index (fst p))
                                  (values (fst p)) ok ++ [])
                        | Raise e => Raise e
                        end).
  { intros p Hin. destruct (Hps p Hin) as (vs & El & Ef).
    exists vs. split; [apply lookup_In; assumption|].
    split; [rewrite Ef; reflexivity|].
    apply column_validate_is_same, metadata_schema_columns.
    rewrite <- Hmap. apply in_map. assumption. }
  split.
  - intros (n & vs & Hin & Hempty).
    rewrite (mapM_raise _ ps KeyError); [reflexivity| |].
    + intros p Hin'. destruct (Hp p Hin') as (vs' & _ & Ev & ->).
      destruct (is_same_cases (fst p)) as [H1 H2].
      destruct (present (values (fst p))) as [|x l] eqn:Epr.
      * right. rewrite H1; reflexivity.
      * left. destruct H2 as (bs & ->); [discriminate|]. eauto.
    + assert (Hn : In n (map col_name metadata_schema)).
      { change (map col_name metadata_schema) with metadata_columns.
        rewrite <- Hnames. apply in_map_iff. exists (n, vs). auto. }
      rewrite <- Hmap, map_map in Hn. apply in_map_iff in Hn.
      destruct Hn as (p & En & Hin').
      exists p. split; [assumption|].
      destruct (Hp p Hin') as (vs' & Hin'' & Ev & ->).
      rewrite En in Hin''.
      assert (Hvs : vs' = vs).
      { assert (Hnd : NoDup (map fst (df_columns df)))
          by (rewrite Hnames; apply metadata_columns_nodup).
        pose proof (lookup_of_In _ _ _ Hnd Hin) as L1.
        pose proof (lookup_of_In _ _ _ Hnd Hin'') as L2. congruence. }
      rewrite Hvs in Ev.
      destruct (is_same_cases (fst p)) as [H1 _].
      rewrite H1; [reflexivity|]. rewrite Ev. assumption.
  - intros Hfull.
    destruct (mapM_all_ok (fun p => column_validate valid_date (snd p) (fst p)) ps)
      as (ess & ->); [|simpl; eauto].
    intros p Hin. destruct (Hp p Hin) as (vs & Hin' & Ev & ->).
    destruct (is_same_cases (fst p)) as [_ H2].
    destruct H2 as (bs & ->); [rewrite Ev; eapply Hfull; eassumption|].
    eauto.
Qed.

Lemma empty_column_dec (cols : list (string * list cell)) :
  (exists n vs, In (n, vs) cols /\ present vs = [])
  \/ (forall n vs, In (n, vs) cols -> present vs <> []).
Proof.
  induction cols as [|[n vs] cols IH].
  - right. intros n vs [].
  - destruct (present vs) as [|x l] eqn:E.
    + left. exists n, vs. split; [left; reflexivity|assumption].
    + destruct IH as [(n' & vs' & Hin & He)|IH].
      * left. exists n', vs'. split; [right; assumption|assumption].
      * right. intros n' vs' [H|H]; [inversion H; subst; congruence|].
        eapply IH. eassumption.
Qed.

(** X9: on the rows of one station, holding the nine metadata columns,
    [metadata_schema.validate] raises exactly when one of the columns holds
    no value in these rows (all its cells None or NaN, or no row at all),
    and what it raises is KeyError; otherwise it returns its list of
    errors. *)
Theorem metadata_validate_raises_iff_empty_column :
  forall valid_date df,
    map fst (df_columns df) = metadata_columns ->
    (schema_validate valid_date metadata_schema df = Raise KeyError <->
     exists n vs, In (n, vs) (df_columns df) /\ present vs = [])
    /\ (forall e, schema_validate valid_date metadata_schema df = Raise e ->
                  e = KeyError).
Proof.
  intros vd df Hnames.
  destruct (metadata_validate_cases vd df Hnames) as [Ha Hb].
  pose proof (empty_column_dec (df_columns df)) as Hdec.
  split; [split|].
  - intros Hr. destruct Hdec as [H|H]; [assumption|].
    destruct (Hb H) as (ws & E). congruence.
  - assumption.
  - intros e Hr. destruct Hdec as [H|H].
    + rewrite (Ha H) in Hr. inversion Hr. reflexivity.
    + destruct (Hb H) as (ws & E). congruence.
Qed.

Lemma metadata_validate_witness :
  (schema_validate any_date metadata_schema
     (station_sheet "AR1" 1 [1; 1; 2]%Z) = Raise KeyError <->
   exists n vs,
     In (n, vs) (df_columns (station_sheet "AR1" 1 [1; 1; 2]%Z))
     /\ present vs = [])
  /\ (forall e,
        schema_validate any_date metadata_schema
          (station_sheet "AR1" 1 [1; 1; 2]%Z) = Raise e -> e = KeyError).
Proof.
  apply (metadata_validate_raises_iff_empty_column any_date
           (station_sheet "AR1" 1 [1; 1; 2]%Z)).
  reflexivity.
Defined.

(** X10: when the sheet lacks one of the nine metadata columns, the
    station-by-station cell prints nothing and ends with KeyError, at the
    selection of the metadata columns. *)
Theorem station_loop_missing_column :
  forall valid_date sheet n,
    In n metadata_columns ->
    lookup n (df_columns sheet) = None ->
    station_loop valid_date sheet = ([], Some KeyError).
Proof.
  intros vd sheet n Hn Hl. unfold station_loop.
  assert (E : get_columns sheet metadata_columns = Raise KeyError).
  { unfold get_columns.
    rewrite (mapM_raise _ metadata_columns KeyError); [reflexivity| |].
    - intros x _. unfold get_column.
      destruct (lookup x (df_columns sheet)); simpl; eauto.
    - exists n. split; [assumption|]. unfold get_column. rewrite Hl.
      reflexivity. }
  rewrite E. reflexivity.
Qed.

Lemma station_loop_missing_column_witness :
  station_loop any_date
    {| df_index := [0%Z]; df_columns := [ ("Cruise", [CStr "AR1"]) ] |}
  = ([], Some KeyError).
Proof.
  apply (station_loop_missing_column any_date _ "Station").
  - right. left. reflexivity.
  - reflexivity.
Defined.

(** ** The validation schema, row by row *)

Lemma mapM_Forall2 {A B} (f : A -> result B) (l : list A) ys :
  mapM f l = Ok ys -> Forall2 (fun x y => f x = Ok y) l ys.
Proof.
  revert ys. induction l as [|x l IH]; simpl; intros ys E.
  - inversion E. constructor.
  - destruct (f x) as [y|] eqn:Ef; simpl in E; [|discriminate].
    destruct (mapM f l) as [ys'|]; simpl in E; [|discriminate].
    inversion E; subst. constructor; [assumption|]. apply IH. reflexivity.
Qed.

Lemma Forall2_map_fun {A B} (P : A -> B -> Prop) (g : A -> B) (l : list A) :
  (forall x, P x (g x)) -> Forall2 P l (map g l).
Proof.
  intros H. induction l; simpl; constructor; auto.
Qed.

Lemma Forall2_zip_with {A} (Pa Pb P : A -> bool -> Prop) f l :
  (forall c x y, Pa c x -> Pb c y -> P c (f x y)) ->
  forall xs ys,
    Forall2 Pa l xs -> Forall2 Pb l ys -> Forall2 P l (zip_with f xs ys).
Proof.
  intros H. induction l as [|c l IH]; intros xs ys Ha Hb;
    inversion Ha; subst; inversion Hb; subst; simpl; constructor; eauto.
Qed.

Lemma validate_rowwise valid_date v :
  elementwise v = true ->
  forall s bs,
    validate valid_date v s = Ok bs ->
    Forall2 (fun c b => validate valid_date v (series_of "" [c]) = Ok [b])
      (values s) bs.
Proof.
  induction v as [options|pattern|lo hi|fmt|f m|f m|a IHa b IHb|a IHa b IHb];
    intros He s bs E; simpl in E.
  - inversion E. apply Forall2_map_fun. reflexivity.
  - destruct (Re.compile pattern) as [r|] eqn:Ec; [|discriminate].
    inversion E. apply Forall2_map_fun. intros c. simpl. rewrite Ec.
    reflexivity.
  - inversion E. apply Forall2_map_fun. reflexivity.
  - inversion E. apply Forall2_map_fun. reflexivity.
  - apply mapM_Forall2 in E. eapply Forall2_impl; [|exact E].
    intros c b Hf. simpl. rewrite Hf. reflexivity.
  - discriminate He.
  - simpl in He. apply andb_true_iff in He. destruct He as [Ha Hb].
    destruct (validate valid_date a s) as [x|] eqn:Ex; simpl in E;
      [|discriminate].
    destruct (validate valid_date b s) as [y|] eqn:Ey; simpl in E;
      [|discriminate].
    inversion E; subst.
    eapply Forall2_zip_with; [|apply IHa; eauto|apply IHb; eauto].
    intros c bx by_ H1 H2. simpl in *. rewrite H1, H2. reflexivity.
  - simpl in He. apply andb_true_iff in He. destruct He as [Ha Hb].
    destruct (validate valid_date a s) as [x|] eqn:Ex; simpl in E;
      [|discriminate].
    destruct (validate valid_date b s) as [y|] eqn:Ey; simpl in E;
      [|discriminate].
    inversion E; subst.
    eapply Forall2_zip_with; [|apply IHa; eauto|apply IHb; eauto].
    intros c bx by_ H1 H2. simpl in *. rewrite H1, H2. reflexivity.
Qed.

Lemma schema_elementwise cruise_names :
  forallb (fun c => forallb elementwise (validations c)) (schema cruise_names)
  = true.
Proof. vm_compute. reflexivity. Qed.

(** X11: every validation of the schema judges a column row by row: when it
    returns, the verdict of each row is the verdict the same validation
    gives to that cell validated alone, whatever the other rows hold. *)
Theorem schema_validations_are_rowwise :
  forall cruise_names valid_date c v s bs,
    In c (schema cruise_names) -> In v (validations c) ->
    validate valid_date v s = Ok bs ->
    Forall2 (fun cell b => validate valid_date v (series_of "" [cell]) = Ok [b])
      (values s) bs.
Proof.
  intros cn vd c v s bs Hc Hv E.
  apply validate_rowwise; [|assumption].
  pose proof (schema_elementwise cn) as H.
  rewrite forallb_forall in H. specialize (H c Hc).
  rewrite forallb_forall in H. apply H. assumption.
Qed.

Lemma schema_rowwise_witness :
  Forall2 (fun cell b => validate any_date IntValidation (series_of "" [cell])
                         = Ok [b])
    [CStr "12"; CStr "x"; CInt 3] [true; false; true].
Proof.
  apply (schema_validations_are_rowwise [] any_date
           (Column_ "Station" [ IntValidation ]) IntValidation
           (series_of "Station" [CStr "12"; CStr "x"; CInt 3])
           [true; false; true]).
  - right. left. reflexivity.
  - left. reflexivity.
  - reflexivity.
Defined.

Lemma mapM_repeat {A B} (f : A -> result B) c b n :
  f c = Ok b -> mapM f (repeat c n) = Ok (repeat b n).
Proof.
  intros H. induction n as [|n IH]; simpl; [reflexivity|].
  rewrite H, IH. reflexivity.
Qed.

Lemma zip_with_repeat {A B C} (f : A -> B -> C) x y n :
  zip_with f (repeat x n) (repeat y n) = repeat (f x y) n.
Proof.
  induction n as [|n IH]; simpl; [reflexivity|]. rewrite IH. reflexivity.
Qed.

Lemma validate_repeat valid_date v :
  elementwise v = true ->
  forall c b,
    validate valid_date v (series_of "" [c]) = Ok [b] ->
    forall s n, values s = repeat c n ->
                validate valid_date v s = Ok (repeat b n).
Proof.
  induction v as [options|pattern|lo hi|fmt|f m|f m|a IHa b IHb|a IHa b IHb];
    intros He c b0 E s n Hs; simpl in E |- *.
  - inversion E. rewrite Hs, map_repeat. reflexivity.
  - destruct (Re.compile pattern) as [r|]; [|discriminate].
    inversion E. rewrite Hs, map_repeat. reflexivity.
  - inversion E. rewrite Hs, map_repeat. reflexivity.
  - inversion E. rewrite Hs, map_repeat. reflexivity.
  - rewrite Hs. apply mapM_repeat.
    destruct (f c); simpl in E; [inversion E; reflexivity|discriminate].
  - discriminate He.
  - simpl in He. apply andb_true_iff in He. destruct He as [Ha Hb].
    destruct (validate valid_date a (series_of "" [c])) as [x|] eqn:Ex;
      simpl in E; [|discriminate].
    destruct (validate valid_date b (series_of "" [c])) as [y|] eqn:Ey;
      simpl in E; [|discriminate].
    pose proof (validate_rowwise valid_date a Ha _ _ Ex) as Fa.
    pose proof (validate_rowwise valid_date b Hb _ _ Ey) as Fb.
    simpl in Fa, Fb.
    inversion Fa as [|? bx ? ? _ Fa']; subst. inversion Fa'; subst.
    inversion Fb as [|? by_ ? ? _ Fb']; subst. inversion Fb'; subst.
    simpl in E. inversion E; subst.
    rewrite (IHa Ha c bx Ex s n Hs), (IHb Hb c by_ Ey s n Hs). simpl.
    rewrite zip_with_repeat. reflexivity.
  - simpl in He. apply andb_true_iff in He. destruct He as [Ha Hb].
    destruct (validate valid_date a (series_of "" [c])) as [x|] eqn:Ex;
      simpl in E; [|discriminate].
    destruct (validate valid_date b (series_of "" [c])) as [y|] eqn:Ey;
      simpl in E; [|discriminate].
    pose proof (validate_rowwise valid_date a Ha _ _ Ex) as Fa.
    pose proof (validate_rowwise valid_date b Hb _ _ Ey) as Fb.
    simpl in Fa, Fb.
    inversion Fa as [|? bx ? ? _ Fa']; subst. inversion Fa'; subst.
    inversion Fb as [|? by_ ? ? _ Fb']; subst. inversion Fb'; subst.
    simpl in E. inversion E; subst.
    rewrite (IHa Ha c bx Ex s n Hs), (IHb Hb c by_ Ey s n Hs). simpl.
    rewrite zip_with_repeat. reflexivity.
Qed.

Lemma failing_all_true msg col n :
  forall idx vals, failing msg col idx vals (repeat true n) = [].
Proof.
  induction n as [|n IH]; intros [|i idx] [|v vals]; simpl; auto.
Qed.

Lemma column_of_fill valid_date c :
  Forall (fun v => elementwise v = true
                   /\ validate valid_date v (series_of "" [CStr fill])
                      = Ok [true]) (validations c) ->
  forall nm idx n,
    column_validate valid_date c
      {| name := nm; index := idx; values := repeat (CStr fill) n |} = Ok [].
Proof.
  intros H nm idx n. unfold column_validate.
  set (s := {| name := nm; index := idx; values := repeat (CStr fill) n |}).
  assert (E : mapM (fun v => get_errors valid_date v s) (validations c)
              = Ok (map (fun _ => []) (validations c))).
  { induction H as [|v l [He Hv] _ IH]; simpl; [reflexivity|].
    unfold get_errors at 1.
    rewrite (validate_repeat valid_date v He _ _ Hv s n eq_refl). simpl.
    rewrite failing_all_true, IH. reflexivity. }
  rewrite E. simpl. f_equal. clear H E.
  induction (validations c) as [|v l IH]; simpl; [reflexivity|exact IH].
Qed.

Ltac fill_verdict :=
  vm_compute;
  repeat match goal with
         | |- context [if ?x then _ else _] => destruct x
         end;
  reflexivity.

(** X12: in each of the 74 columns of the schema whose rule names the fill
    value, a column that holds the string -9999999 in every row raises no
    error, whatever the number of rows, the cruise names and the date
    parser; the six columns without the fill value in their rule are not
    among them. *)
Theorem fill_value_raises_no_error :
  forall cruise_names valid_date,
    Forall
      (fun c =>
         forall idx n,
           column_validate valid_date c
             {| name := col_name c; index := idx;
                values := repeat (CStr "-9999999") n |} = Ok [])
      (fill_columns (schema cruise_names))
    /\ List.length (fill_columns (schema cruise_names)) = 74%nat
    /\ map col_name
         (filter (fun c => negb (existsb (String.eqb fill) (column_patterns c)))
            (schema cruise_names))
       = [ "Station"; "Target Asset"; "Start Latitude [degrees]";
           "Start Longitude [degrees]"; "Start Time [UTC]"; "Cast" ].
Proof.
  intros cn vd. split; [|split; reflexivity].
  unfold fill_columns. simpl filter.
  repeat (apply Forall_cons;
          [ intros idx n; apply column_of_fill;
            repeat (apply Forall_cons; [split; [reflexivity|fill_verdict]|]);
            apply Forall_nil
          | ]).
  apply Forall_nil.
Qed.

(** ** Printing the errors *)

Lemma starts_with_spec p s :
  starts_with p s = true <-> exists post, s = p ++ post.
Proof.
  revert s. induction p as [|a p IH]; intros s; simpl.
  - split; [intros _; exists s; reflexivity|reflexivity].
  - destruct s as [|b s].
    + split; [discriminate|]. intros (post & E). discriminate E.
    + rewrite andb_true_iff, Ascii.eqb_eq, IH. split.
      * intros [-> (post & ->)]. exists post. reflexivity.
      * intros (post & E). inversion E; subst. split; [reflexivity|eauto].
Qed.

Lemma occurs_spec p s :
  occurs p s = true <-> exists pre post, s = pre ++ p ++ post.
Proof.
  induction s as [|c s IH]; simpl; rewrite orb_true_iff, starts_with_spec.
  - split.
    + intros [(post & E)|H]; [|discriminate]. exists [], post. exact E.
    + intros (pre & post & E). left. destruct pre; [|discriminate].
      exists post. exact E.
  - rewrite IH. split.
    + intros [(post & E)|(pre & post & E)].
      * exists [], post. exact E.
      * exists (c :: pre), post. simpl. rewrite E. reflexivity.
    + intros ([|c' pre] & post & E).
      * left. exists post. exact E.
      * right. inversion E; subst. exists pre, post. reflexivity.
Qed.

Lemma occurs_strings sub s :
  occurs (chars sub) (chars s) = true <->
  exists pre post, s = (pre ++ sub ++ post)%string.
Proof.
  rewrite occurs_spec. split.
  - intros (pre & post & E). exists (text pre), (text post).
    rewrite <- (text_chars s), E, !text_app, text_chars. reflexivity.
  - intros (pre & post & ->). exists (chars pre), (chars post).
    rewrite !chars_app. reflexivity.
Qed.

Lemma print_error_with_column w c :
  w_column w = Some c ->
  print_error w = (if suppressed w then [] else [ warning_str w ], None).
Proof.
  intros H. unfold print_error, suppressed, str_in. rewrite H. cbv [bind].
  destruct (occurs (chars "Calculated") (chars c));
    destruct (occurs (chars "Cruise") (chars c));
    destruct (occurs (chars "CTD Beam Attenuation") (chars c)); reflexivity.
Qed.

(** X13: when every error names a column, the printing loop prints, in
    order, the errors whose column name contains none of Calculated, Cruise
    and CTD Beam Attenuation, and passes over the others without raising;
    in the schema that silences eleven columns, the column Cruise among
    them. *)
Theorem print_errors_filters_columns :
  (forall errors,
      (forall w, In w errors -> w_column w <> None) ->
      print_errors errors
      = (map warning_str (filter (fun w => negb (suppressed w)) errors), None))
  /\ (forall w c,
        w_column w = Some c ->
        (suppressed w = true <->
         exists pre post,
           c = (pre ++ "Calculated" ++ post)%string
           \/ c = (pre ++ "Cruise" ++ post)%string
           \/ c = (pre ++ "CTD Beam Attenuation" ++ post)%string))
  /\ (forall cruise_names,
        map col_name
          (filter (fun c => suppressed
                              {| w_message := ""; w_value := CNone;
                                 w_row := 0%Z; w_column := Some (col_name c) |})
             (schema cruise_names))
        = [ "Cruise"; "CTD Beam Attenuation [1/m]";
            "Calculated Alkalinity [umol/kg]"; "Calculated DIC [umol/kg]";
            "Calculated pCO2 [uatm]"; "Calculated pH";
            "Calculated CO2aq [umol/kg]"; "Calculated Bicarb [umol/kg]";
            "Calculated CO3 [umol/kg]"; "Calculated Omega-C";
            "Calculated Omega-A" ]).
Proof.
  split; [|split].
  - unfold print_errors. intros errs. induction errs as [|w l IH]; intros H.
    + reflexivity.
    + destruct (w_column w) as [c|] eqn:Ec;
        [|exfalso; apply (H w); [left; reflexivity|assumption]].
      simpl for_each. rewrite (print_error_with_column w c Ec).
      rewrite IH by (intros x Hx; apply H; right; assumption).
      simpl filter. destruct (suppressed w); reflexivity.
  - intros w c Hc. unfold suppressed. rewrite Hc.
    rewrite !orb_true_iff, !occurs_strings. split.
    + intros [[(pre & post & E)|(pre & post & E)]|(pre & post & E)];
        exists pre, post; auto.
    + intros (pre & post & [E|[E|E]]); [left; left|left; right|right];
        exists pre, post; exact E.
  - intros cn. vm_compute. reflexivity.
Qed.

Lemma print_errors_witness :
  print_errors
    [ {| w_message := "is not an integer"; w_value := CStr "x";
         w_row := 0%Z; w_column := Some "Cast" |};
      {| w_message := "m"; w_value := CStr "y";
         w_row := 1%Z; w_column := Some "Calculated pH" |} ]
  = (map warning_str
       (filter (fun w => negb (suppressed w))
          [ {| w_message := "is not an integer"; w_value := CStr "x";
               w_row := 0%Z; w_column := Some "Cast" |};
            {| w_message := "m"; w_value := CStr "y";
               w_row := 1%Z; w_column := Some "Calculated pH" |} ]), None).
Proof.
  apply (proj1 print_errors_filters_columns).
  intros w [<-|[<-|[]]]; discriminate.
Defined.








(** ** The patterns of the schema *)

Lemma search_literals r (lits : list string) :
  (forall mid post,
      Re.Matches r mid post <-> exists lit, In lit lits /\ mid = chars lit) ->
  forall s,
    Re.search r (chars s) = true <->
    exists lit pre post, In lit lits /\ s = (pre ++ lit ++ post)%string.
Proof.
  intros Hr s. rewrite search_spec. split.
  - intros (pre & mid & post & E & M). apply Hr in M.
    destruct M as (lit & Hin & ->).
    exists lit, (text pre), (text post). split; [assumption|].
    rewrite <- (text_chars s), E, !text_app, text_chars. reflexivity.
  - intros (lit & pre & post & Hin & ->).
    exists (chars pre), (chars lit), (chars post). split.
    + rewrite !chars_app. reflexivity.
    + apply Hr. eauto.
Qed.

Lemma repeat_lit_matches a n :
  forall w t, Re.Matches (Re.Repeat (Re.Lit a) n) w t <-> w = repeat a n.
Proof.
  induction n as [|n IH]; intros w t; split.
  - intros M. inversion M; subst. reflexivity.
  - intros ->. constructor.
  - intros M. inversion M as [| | | | | | | | | |r n' w1 w2 t' M1 M2|]; subst.
    apply IH in M2. inversion M1; subst. reflexivity.
  - intros ->. change (repeat a (S n)) with ([a] ++ repeat a n).
    constructor; [constructor|]. apply IH. reflexivity.
Qed.

Lemma ungrouped_regex_matches mid post :
  Re.Matches ungrouped_regex mid post <->
  exists lit, In lit [ "*0"; "1111111111111111" ] /\ mid = chars lit.
Proof.
  unfold ungrouped_regex. split.
  - intros M. inversion M as [| | | | |r1 r2 w t ML|r1 r2 w t MR| | | | |]; subst.
    + inversion ML as [| | | |r1 r2 w1 w2 t M1 M2| | | | | | |]; subst.
      inversion M1; subst. inversion M2; subst.
      exists "*0". split; [left; reflexivity|reflexivity].
    + apply repeat_lit_matches in MR. subst mid.
      exists "1111111111111111". split; [right; left|]; reflexivity.
  - intros (lit & [<-|[<-|[]]] & ->).
    + apply Re.MAltL. change (chars "*0") with ([ "*" ] ++ [ "0" ])%char.
      constructor; constructor.
    + apply Re.MAltR. apply repeat_lit_matches. reflexivity.
Qed.

Lemma fill_regex_matches_lits mid post :
  Re.Matches fill_regex mid post <->
  exists lit, In lit [ fill ] /\ mid = chars lit.
Proof.
  rewrite fill_regex_matches. split.
  - intros ->. exists fill. split; [left; reflexivity|reflexivity].
  - intros (lit & [<-|[]] & ->). reflexivity.
Qed.

Lemma column_validate_one valid_date n v s e :
  get_errors valid_date v s = Ok e ->
  column_validate valid_date (Column_ n [v]) s = Ok (e ++ []).
Proof.
  intros H. unfold column_validate.
  change (validations (Column_ n [v])) with [v].
  change (mapM (fun v0 => get_errors valid_date v0 s) [v])
    with (bind (get_errors valid_date v s) (fun y => Ok [y])).
  rewrite H. reflexivity.
Qed.

(** X16: the column CTD Pressure Flag, whose rule is the ungrouped flag
    pattern or the fill pattern and no length check, raises no error for a
    cell exactly when the text of the cell contains "*0", or sixteen 1 in a
    row, or -9999999, anywhere and with anything around. *)
Theorem pressure_flag_accepts :
  forall cruise_names valid_date c,
    exists col,
      find_column "CTD Pressure Flag" (schema cruise_names) = Some col
      /\ (column_validate valid_date col (series_of "CTD Pressure Flag" [c])
          = Ok []
          <-> exists pre post,
                str c = (pre ++ "*0" ++ post)%string
                \/ str c = (pre ++ "1111111111111111" ++ post)%string
                \/ str c = (pre ++ "-9999999" ++ post)%string).
Proof.
  intros cn vd c.
  exists (Column_ "CTD Pressure Flag"
            [ MatchesPatternValidation "\*0|1{16}"
              |: MatchesPatternValidation "-9999999" ]).
  split; [reflexivity|].
  rewrite (column_validate_one vd _ _ _ _
             (get_errors_one_or_patterns vd "\*0|1{16}" "-9999999"
                ungrouped_regex fill_regex "CTD Pressure Flag" c
                eq_refl eq_refl)).
  pose proof (search_literals _ _ ungrouped_regex_matches (str c)) as Hu.
  pose proof (search_literals _ _ fill_regex_matches_lits (str c)) as Hf.
  destruct (Re.search ungrouped_regex (chars (str c))) eqn:Eu;
    destruct (Re.search fill_regex (chars (str c))) eqn:Ef;
    cbv [orb app].
  - split; [intros _|reflexivity].
    destruct (proj1 Hu eq_refl) as (lit & pre & post & [<-|[<-|[]]] & E);
      exists pre, post; auto.
  - split; [intros _|reflexivity].
    destruct (proj1 Hu eq_refl) as (lit & pre & post & [<-|[<-|[]]] & E);
      exists pre, post; auto.
  - split; [intros _|reflexivity].
    destruct (proj1 Hf eq_refl) as (lit & pre & post & [<-|[]] & E).
    exists pre, post. auto.
  - split; [discriminate|].
    intros (pre & post & [E|[E|E]]); exfalso.
    + assert (false = true); [|discriminate].
      apply Hu. exists "*0", pre, post. split; [left; reflexivity|exact E].
    + assert (false = true); [|discriminate].
      apply Hu. exists "1111111111111111", pre, post.
      split; [right; left; reflexivity|exact E].
    + assert (false = true); [|discriminate].
      apply Hf. exists fill, pre, post. split; [left; reflexivity|exact E].
Qed.

Lemma hex_regex_matches mid post :
  Re.Matches hex_regex mid post ->
  (exists w, mid = w ++ chars ".hex") /\ (post = [] \/ post = [newline]).
Proof.
  unfold hex_regex. intros M.
  repeat match goal with
         | H : Re.Matches (Re.Seq _ _) _ _ |- _ => inversion H; subst; clear H
         | H : Re.Matches (Re.Lit _) _ _ |- _ => inversion H; subst; clear H
         | H : Re.Matches Re.Eol _ _ |- _ => inversion H; subst; clear H
         end.
  split; [|assumption].
  rewrite app_nil_r, <- !app_assoc. eexists. reflexivity.
Qed.

Lemma hex_regex_suffix post :
  post = [] \/ post = [newline] ->
  Re.Matches hex_regex (chars ".hex") post.
Proof.
  intros H. unfold hex_regex.
  change (chars ".hex")
    with ((((([] ++ [ "." ]) ++ [ "h" ]) ++ [ "e" ]) ++ [ "x" ]) ++ [])%char.
  apply Re.MSeq; [|apply Re.MEol; assumption].
  repeat (apply Re.MSeq; [|apply Re.MLit]).
  apply Re.MStar0.
Qed.

(** X17: the pattern of the column CTD File passes a cell exactly when the
    text of the cell ends with ".hex", or with ".hex" and one newline;
    what stands before ".hex" does not matter. *)
Theorem hex_pattern_accepts_suffix :
  forall c,
    passes (MatchesPatternValidation ".*\.hex$") c = Ok true <->
    exists pre,
      str c = (pre ++ ".hex")%string
      \/ str c = (pre ++ ".hex" ++ String newline "")%string.
Proof.
  intros c.
  rewrite (passes_pattern ".*\.hex$" hex_regex c eq_refl).
  assert (S : Re.search hex_regex (chars (str c)) = true <->
              exists pre,
                str c = (pre ++ ".hex")%string
                \/ str c = (pre ++ ".hex" ++ String newline "")%string).
  { rewrite search_spec. split.
    - intros (pre & mid & post & E & M).
      apply hex_regex_matches in M. destruct M as [(w & ->) Hpost].
      exists (text (pre ++ w)).
      assert (Hs : str c = (text (pre ++ w) ++ ".hex" ++ text post)%string).
      { rewrite <- (text_chars (str c)), E.
        replace (pre ++ (w ++ chars ".hex") ++ post)
          with ((pre ++ w) ++ chars ".hex" ++ post)
          by (rewrite <- !app_assoc; reflexivity).
        rewrite (text_app (pre ++ w)), (text_app (chars ".hex")).
        reflexivity. }
      rewrite Hs. destruct Hpost as [->| ->]; [left|right]; reflexivity.
    - intros (pre & [E|E]).
      + exists (chars pre), (chars ".hex"), [].
        split; [|apply hex_regex_suffix; left; reflexivity].
        rewrite E, chars_app, app_nil_r. reflexivity.
      + exists (chars pre), (chars ".hex"), [newline].
        split; [|apply hex_regex_suffix; right; reflexivity].
        rewrite E, !chars_app. reflexivity. }
  split.
  - intros E. apply S. inversion E. reflexivity.
  - intros H. apply S in H. rewrite H. reflexivity.
Qed.
